(** * The ECG preprocessing pipeline of [classify.py]

    A shallow embedding of the dataset adapter ([ECGDataset]), of the
    signal helpers ([extend_ts], [scaling], [shift], [transform],
    [insert_ones]) and of the loader [get_preloaded_data], followed by the
    properties stated about them.

    Conventions of the embedding.
    - A numpy 2-D array is a list of rows, [list (list Q)]; [shape[0]] is
      the number of rows and [shape[1]] the width of the rows.  An array
      without rows is [[]]: its width is not recorded.
    - Samples are rationals: a finite value of a float array is a
      rational.  [astype('float32')] and the in-place addition of [shift]
      round to the array's type as numpy does ([round_binary]); the sums
      and products inside [scaling] are taken exactly.  Sample values are
      compared with [==] where exact arithmetic produced them and with [=]
      elsewhere.
    - Python exceptions are the constructors of [exn]; a call that can
      raise returns a [result].
    - numpy's global random generator is a [RandomState]: two oracles
      giving the successive raw draws and a cursor that every draw
      advances. *)

From Stdlib Require Import ZArith QArith Qabs Qround Lia.
From stdpp Require Import gmap strings list.

Open Scope Z_scope.

(** ** Exceptions and results *)

Inductive exn : Set :=
  | IndexError
  | KeyError
  | ValueError.

Inductive result (A : Type) : Type :=
  | Ok (a : A)
  | Raise (e : exn).
Arguments Ok {A} a.
Arguments Raise {A} e.

#[global] Instance result_ret : MRet result := fun _ a => Ok a.
#[global] Instance result_bind : MBind result := fun _ _ f m =>
  match m with
  | Ok a => f a
  | Raise e => Raise e
  end.

Definition is_Ok {A} (r : result A) : Prop := ∃ a, r = Ok a.

(** ** Arrays *)

Abbreviation vector := (list Q) (only parsing).
Abbreviation matrix := (list (list Q)) (only parsing).

Definition shape0 (m : matrix) : nat := length m.
Definition shape1 (m : matrix) : nat :=
  match m with
  | [] => 0%nat
  | r :: _ => length r
  end.

(** [m[i, j]] *)
Definition cell (m : matrix) (i j : nat) : option Q := m !! i ≫= (.!! j).

(** Every row has width [c]. *)
Definition width_is (c : nat) (m : matrix) : Prop := Forall (λ r, length r = c) m.

(** [np.zeros((rows, cols))]; a negative dimension raises. *)
Definition np_zeros (rows : Z) (cols : nat) : result matrix :=
  if rows <? 0 then Raise ValueError
  else Ok (replicate (Z.to_nat rows) (replicate cols 0%Q)).

(** Broadcasting of one source row onto a destination row of width [w] in
    an assignment: a row of that width is copied, a row of width one is
    repeated, any other width raises. *)
Definition broadcast_row (w : nat) (r : list Q) : result (list Q) :=
  if decide (length r = w) then Ok r
  else match r with
       | [x] => Ok (replicate w x)
       | _ => Raise ValueError
       end.

Fixpoint broadcast_rows (w : nat) (m : matrix) : result matrix :=
  match m with
  | [] => Ok []
  | r :: m' =>
      r' ← broadcast_row w r;
      m'' ← broadcast_rows w m';
      Ok (r' :: m'')
  end.

(** [dst[:n] = src[:n]] for [n <= len(dst)] and [n <= len(src)], the rows
    of [dst] having width [w].  Whether the slice of [src] can be broadcast
    is decided by the width of [src], so it is checked on all the rows of
    [src], also when [n] is 0. *)
Definition assign_prefix (w : nat) (dst : matrix) (n : nat) (src : matrix)
  : result matrix :=
  rows ← broadcast_rows w src;
  Ok (take n rows ++ drop n dst).

(** [m.T] *)
Definition transpose (m : matrix) : matrix :=
  foldr (zip_with cons) (replicate (shape1 m) []) m.

(** ** Binary floating point

    [round_binary prec emin q] is [q] rounded to the nearest number with
    [prec] significant bits whose unit in the last place is at least
    [2^emin], a tie going to the even significand: the conversion of a
    finite value to an IEEE 754 binary format.  A value beyond the largest
    finite number of the format, which numpy turns into an infinity, is
    outside the model. *)

(** The nearest integer, a tie going to the even one. *)
Definition round_half_even (q : Q) : Z :=
  let f := Qfloor q in
  match (q - inject_Z f ?= 1 # 2)%Q with
  | Lt => f
  | Gt => f + 1
  | Eq => if Z.even f then f else f + 1
  end.

(** [floor (log2 |q|)] for [q] other than 0. *)
Definition exponent_of (q : Q) : Z :=
  let e := Z.log2 (Z.abs (Qnum q)) - Z.log2 (Z.pos (Qden q)) in
  if Qle_bool (2 ^ e) (Qabs q) then e else e - 1.

Definition round_binary (prec emin : Z) (q : Q) : Q :=
  if Qeq_bool q 0 then 0%Q
  else
    let ulp := (2 ^ Z.max (exponent_of q - (prec - 1)) emin)%Q in
    Qred (inject_Z (round_half_even (q / ulp)) * ulp).

Inductive dtype : Set :=
  | float32
  | float64.

Definition round_to (dt : dtype) (q : Q) : Q :=
  match dt with
  | float32 => round_binary 24 (-149) q
  | float64 => round_binary 53 (-1074) q
  end.

(** [m.astype('float32')] *)
Definition astype_float32 (m : matrix) : matrix := map (map (round_to float32)) m.

(** ** [extend_ts] *)

Definition extend_ts (ts : matrix) (length : Z) : result matrix :=
  extended ← np_zeros length 2;
  let siglength := Z.to_nat (Z.min length (Z.of_nat (shape0 ts))) in
  assign_prefix 2 extended siglength ts.

(** ** The random generator *)

Record RandomState : Type := {
  cursor : nat;              (* number of draws made so far *)
  gauss : nat → Q;           (* the n-th draw, read as a standard normal sample *)
  uniform : nat → nat        (* the n-th draw, read as a raw unsigned integer *)
}.

Definition advance (st : RandomState) : RandomState :=
  {| cursor := S (cursor st); gauss := gauss st; uniform := uniform st |}.

(** Computations that read the generator and may raise. *)
Definition M (A : Type) : Type := RandomState → result (A * RandomState).

#[global] Instance M_ret : MRet M := λ _ a st, Ok (a, st).
#[global] Instance M_bind : MBind M := λ _ _ f m st,
  match m st with
  | Ok (a, st') => f a st'
  | Raise e => Raise e
  end.

Definition lift {A} (r : result A) : M A := λ st,
  match r with
  | Ok a => Ok (a, st)
  | Raise e => Raise e
  end.

(** [np.random.randn()] *)
Definition randn : M Q := λ st, Ok (gauss st (cursor st), advance st).

(** [np.random.normal(loc, scale, size=(1, n))]; a negative [scale]
    raises. *)
Fixpoint normal_row (loc scale : Q) (n : nat) : M (list Q) :=
  match n with
  | O => mret []
  | S n' =>
      z ← randn;
      rest ← normal_row loc scale n';
      mret ((loc + scale * z)%Q :: rest)
  end.

Definition np_random_normal (loc scale : Q) (n : nat) : M matrix :=
  if Qle_bool 0 scale then
    row ← normal_row loc scale n;
    mret [row]
  else λ _, Raise ValueError.

(** [range(lo, hi)] *)
Definition py_range (lo hi : Z) : list Z := seqZ lo (hi - lo).

(** [np.random.choice(a)]: a uniformly drawn element of [a]; an empty [a]
    raises. *)
Definition np_random_choice (a : list Z) : M Z := λ st,
  match a !! (uniform st (cursor st) mod length a)%nat with
  | Some x => Ok (x, advance st)
  | None => Raise ValueError
  end.

(** ** [scaling] *)

Definition np_ones (rows cols : nat) : matrix := replicate rows (replicate cols 1%Q).

Definition dot (a b : list Q) : Q := foldr Qplus 0%Q (zip_with Qmult a b).

(** [np.matmul(A, B)]; the width of [A] has to be the height of [B]. *)
Definition np_matmul (A B : matrix) : result matrix :=
  if decide (Forall (λ r, length r = shape0 B) A)
  then Ok (map (λ ra, map (dot ra) (transpose B)) A)
  else Raise ValueError.

(** [X * Y] for two arrays of one shape. *)
Definition np_multiply (X Y : matrix) : matrix := zip_with (zip_with Qmult) X Y.

Definition scaling (X : matrix) (sigma : Q) : M matrix :=
  scalingFactor ← np_random_normal 1 sigma (shape1 X);
  myNoise ← lift (np_matmul (np_ones (shape0 X) 1) scalingFactor);
  mret (np_multiply X myNoise).

(** ** [shift] *)

(** [sig[:, col] += v] on an array of type [dt], [v] being a float64
    scalar: the scalar is converted to the type of the array and the sum
    is rounded to it. *)
Definition add_to_column (dt : dtype) (sig : matrix) (col : nat) (v : Q) : matrix :=
  map (alter (λ x, round_to dt (x + round_to dt v)) col) sig.

(** [offset / 1000], a float64 *)
Definition bias_of (offset : Z) : Q := round_to float64 (inject_Z offset / 1000).

Fixpoint shift_loop (dt : dtype) (cols : list nat) (interval : Z) (sig : matrix)
  : M matrix :=
  match cols with
  | [] => mret sig
  | col :: cols' =>
      offset ← np_random_choice (py_range (- interval) interval);
      shift_loop dt cols' interval (add_to_column dt sig col (bias_of offset))
  end.

(** [shift(sig, interval)] for [sig] a float array of type [dt]. *)
Definition shift (dt : dtype) (sig : matrix) (interval : Z) : M matrix :=
  shift_loop dt (seq 0 (shape1 sig)) interval sig.

(** ** [transform] *)

(** [r > 0.5] *)
Definition above_half (r : Q) : bool := negb (Qle_bool r (1 # 2)).

(** [sig] is the float32 array that [__getitem__], the only caller, passes;
    the product of [scaling] is a float64 array. *)
Definition transform (sig : matrix) (train : bool) : M matrix :=
  if train then
    r1 ← randn;
    sig ← (if above_half r1
           then sig ← scaling sig (1 # 10); mret (sig, float64)
           else mret (sig, float32));
    r2 ← randn;
    sig ← (if above_half r2 then shift sig.2 sig.1 20 else mret sig.1);
    mret sig
  else mret sig.

(** ** Metadata and Python sequences *)

Record entry : Type := {
  path : string;
  class : Z;
  sig_len : Z;
  af_ends : list Z
}.

(** [l[idx]] on a Python list: a negative index counts from the end. *)
Definition py_index {A} (l : list A) (idx : Z) : result A :=
  let n := Z.of_nat (length l) in
  let i := if idx <? 0 then idx + n else idx in
  if (0 <=? i) && (i <? n) then
    match l !! Z.to_nat i with
    | Some x => Ok x
    | None => Raise IndexError
    end
  else Raise IndexError.

(** [l[:stop]] on a Python list: a negative stop counts from the end. *)
Definition py_take {A} (l : list A) (stop : Z) : list A :=
  if stop <? 0 then take (length l - Z.to_nat (- stop)) l
  else take (Z.to_nat stop) l.

(** [d[key]] on a dict *)
Definition py_getitem {V} (d : gmap string V) (key : string) : result V :=
  match d !! key with
  | Some v => Ok v
  | None => Raise KeyError
  end.

(** ** [ECGDataset] *)

Module ECGDataset.

Record t : Type := {
  metadata : list entry;
  preloaded_data : gmap string matrix;
  transform : option (matrix → M matrix);
  target_transform : option (vector → M vector)
}.

(** [__len__] *)
Definition len (self : t) : Z := Z.of_nat (length (metadata self)).

(** [__getitem__] *)
Definition getitem (self : t) (idx : Z) : M (matrix * vector * Z) :=
  entry ← lift (py_index (metadata self) idx);
  let class_label := class entry in
  sig ← lift (py_getitem (preloaded_data self) (path entry));
  ext ← lift (extend_ts sig 15000);
  let sig := transpose (astype_float32 ext) in
  let label : vector := [inject_Z class_label] in
  sig ← match transform self with
        | Some f => f sig
        | None => mret sig
        end;
  label ← match target_transform self with
          | Some g => g label
          | None => mret label
          end;
  let end_ := match af_ends entry with
              | [] => -1
              | e :: _ => e
              end in
  mret (sig, label, end_).

End ECGDataset.

(** ** [insert_ones] *)

(** [int(end_step_x * 1000 / 15000.0)]: the quotient truncated toward
    zero.  The float division is exact enough for the truncation to agree
    with the exact quotient as long as [end_step_x * 1000] is below 2^53 in
    absolute value. *)
Definition end_step_y_of (end_step_x : Z) : Z := (end_step_x * 1000) ÷ 15000.

Definition insert_ones (y : vector) (end_step_x : Z) : vector :=
  let end_step_y := end_step_y_of end_step_x in
  foldl (λ y i, if i <? Z.of_nat (length y) then <[Z.to_nat i := 1%Q]> y else y)
        y (py_range 0 (end_step_y + 1)).

(** ** [get_preloaded_data] *)

Section Loader.

(** [wfdb.rdsamp(path, sampto=n)] reads a record from storage; it is not
    part of this program and may raise. *)
Variable rdsamp : string → Z → result matrix.

Fixpoint preload (entries : list entry) (preloaded_data : gmap string matrix)
  : result (gmap string matrix) :=
  match entries with
  | [] => Ok preloaded_data
  | entry :: rest =>
      sig ← rdsamp (path entry) (Z.min 50000 (sig_len entry));
      preload rest (<[path entry := sig]> preloaded_data)
  end.

(** [metadata_json] is the JSON object, as its items in insertion order. *)
Definition get_preloaded_data (metadata_json : list (string * entry))
    (limit : option Z) : result (list entry * gmap string matrix) :=
  let metadata := filter (λ x, class x ≠ 2) (metadata_json.*2) in
  let limit := match limit with
               | None => Z.of_nat (length metadata)
               | Some l => l
               end in
  preloaded_data ← preload (py_take metadata limit) ∅;
  Ok (py_take metadata limit, preloaded_data).

End Loader.

(** ** Auxiliary definitions used in the statements *)

(** The generator after [n] draws. *)
Definition advance_by (n : nat) (st : RandomState) : RandomState :=
  Nat.iter n advance st.

(** The factor that [scaling] draws for column [t]: the [t]-th normal
    sample after the cursor, moved to mean 1 and deviation [sigma]. *)
Definition factor (sigma : Q) (st : RandomState) (t : nat) : Q :=
  (1 + sigma * gauss st (cursor st + t)%nat)%Q.

(** Row of [myNoise]: each entry is the one-term product of a row of ones
    with a column of [scalingFactor]. *)
Definition noise_row (sigma : Q) (st : RandomState) (c : nat) : list Q :=
  (λ t, dot [1%Q] [factor sigma st t]) <$> seq 0 c.

(** The offset that [shift] draws for column [t]. *)
Definition offset_at (interval : Z) (st : RandomState) (t : nat) : Z :=
  - interval
  + Z.of_nat (uniform st (cursor st + t)%nat mod Z.to_nat (interval - - interval))%nat.

(** Body of the loop of [insert_ones]. *)
Definition write_one (y : vector) (i : Z) : vector :=
  if i <? Z.of_nat (length y) then <[Z.to_nat i := 1%Q]> y else y.

(** [__getitem__] without the two optional transforms. *)
Definition plain_item (self : ECGDataset.t) (idx : Z) : result (matrix * vector * Z) :=
  entry ← py_index (ECGDataset.metadata self) idx;
  sig ← py_getitem (ECGDataset.preloaded_data self) (path entry);
  ext ← extend_ts sig 15000;
  Ok (transpose (astype_float32 ext), [inject_Z (class entry)],
      match af_ends entry with
      | [] => -1
      | e :: _ => e
      end).

(** The dataset is built with [transform=None], or with the module's
    [transform], which the adapter calls with [train] left at [False]; no
    label transform is attached. *)
Definition no_augmentation (self : ECGDataset.t) : Prop :=
  (ECGDataset.transform self = None
   ∨ ECGDataset.transform self = Some (λ sig, transform sig false))
  ∧ ECGDataset.target_transform self = None.

(** Every entry of the metadata has a two-lead signal in the store. *)
Definition store_ready (self : ECGDataset.t) : Prop :=
  Forall (λ e, ∃ sig, ECGDataset.preloaded_data self !! path e = Some sig
                      ∧ width_is 2 sig)
         (ECGDataset.metadata self).

(** The reading "one factor per channel": each row [c] of the
    channels-first array has one factor [f c] for all its samples. *)
Definition per_channel_factor (X out : matrix) : Prop :=
  ∃ f : nat → Q, ∀ c t x y,
    cell X c t = Some x → cell out c t = Some y → (y == x * f c)%Q.

(** The reading "one bias per channel": each row [c] of the channels-first
    array has one bias [b c] for all its samples. *)
Definition per_channel_bias (X out : matrix) : Prop :=
  ∃ b : nat → Q, ∀ c t x y,
    cell X c t = Some x → cell out c t = Some y → (y == x + b c)%Q.

(** ** Sample data *)

(** A recording of two samples, both leads at 1, and its extension. *)
Definition two_ones : matrix := [[1; 1]; [1; 1]]%Q.
Definition two_ones_extended : matrix := two_ones ++ replicate (Z.to_nat 14998) [0; 0]%Q.

(** A recording of two samples, both leads at 1/2, and its extension. *)
Definition two_halves : matrix := [[1 # 2; 1 # 2]; [1 # 2; 1 # 2]]%Q.
Definition two_halves_extended : matrix :=
  two_halves ++ replicate (Z.to_nat 14998) [0; 0]%Q.

(** A generator whose first normal sample is 10 and whose other samples
    are 0; one whose first raw integer is 0 and whose others are 20. *)
Definition first_gauss_ten : RandomState :=
  {| cursor := 0; gauss := λ n, if (n =? 0)%nat then 10%Q else 0%Q; uniform := λ _, 0%nat |}.
Definition first_uniform_zero : RandomState :=
  {| cursor := 0; gauss := λ _, 0%Q; uniform := λ n, if (n =? 0)%nat then 0%nat else 20%nat |}.

(** The two recordings of the end-to-end scenarios. *)
Definition entry_A : entry :=
  {| path := "A"; class := 1; sig_len := 20000; af_ends := [5000] |}.
Definition entry_B : entry :=
  {| path := "B"; class := 0; sig_len := 100; af_ends := [] |}.
Definition sample_store : gmap string matrix :=
  <["A" := replicate (Z.to_nat 20000) [1; 1]%Q]> (<["B" := replicate 100 [0; 0]%Q]> ∅).
Definition sample_dataset : ECGDataset.t :=
  {| ECGDataset.metadata := [entry_A; entry_B];
     ECGDataset.preloaded_data := sample_store;
     ECGDataset.transform := None;
     ECGDataset.target_transform := None |}.

(** A metadata object with an excluded recording, and a reader that
    returns [n] samples of silence. *)
Definition entry_excluded : entry :=
  {| path := "C"; class := 2; sig_len := 3; af_ends := [] |}.
Definition entry_short : entry :=
  {| path := "D"; class := 1; sig_len := 3; af_ends := [2] |}.
Definition sample_json : list (string * entry) :=
  [("c", entry_excluded); ("d", entry_short)].
Definition silent_rdsamp (p : string) (n : Z) : result matrix :=
  Ok (replicate (Z.to_nat n) [0; 0]%Q).

(** ** Further definitions *)

(** A rectangular array of width [c]. *)
Definition rect (c : nat) (X : matrix) : Prop :=
  width_is c X ∧ shape1 X = c.

(** ** [CNN_RNN], on shapes

    Each layer is represented by what it does to the shape of its input
    and by the shape errors that it raises ([None]); the values of the
    tensors are not modelled.  The input of [forward] is a tensor of shape
    (batch, channels, steps). *)

Module CNN_RNN.

Record shape : Type := {
  batch : Z;
  channels : Z;
  steps : Z
}.

(** [nn.Conv1d(c_in, c_out, kernel, padding=padding, stride=stride)] *)
Definition Conv1d (c_in c_out kernel padding stride : Z) (x : shape) : option shape :=
  if (channels x =? c_in) && (kernel <=? steps x + 2 * padding) then
    Some {| batch := batch x; channels := c_out;
            steps := (steps x + 2 * padding - kernel) / stride + 1 |}
  else None.

(** [nn.BatchNorm1d(features)] *)
Definition BatchNorm1d (features : Z) (x : shape) : option shape :=
  if channels x =? features then Some x else None.

(** [nn.MaxPool1d(kernel, stride)] *)
Definition MaxPool1d (kernel stride : Z) (x : shape) : option shape :=
  if kernel <=? steps x then
    Some {| batch := batch x; channels := channels x;
            steps := (steps x - kernel) / stride + 1 |}
  else None.

(** [nn.Linear(in_features, out_features)] on a tensor (batch, features) *)
Definition Linear (in_features out_features : Z) (x : Z * Z) : option (Z * Z) :=
  if x.2 =? in_features then Some (x.1, out_features) else None.

(** [F.relu], [torch.sigmoid] and [nn.Dropout] keep the shape. *)
Definition relu {A} (x : A) : A := x.
Definition sigmoid {A} (x : A) : A := x.
Definition drop (x : shape) : shape := x.

(** [torch.flatten(x, 1)] *)
Definition flatten (x : shape) : Z * Z := (batch x, channels x * steps x).

(** The layers of [__init__]. *)
Definition conv1 := Conv1d 2 8 3 1 1.
Definition batch1 := BatchNorm1d 8.
Definition conv2 := Conv1d 8 16 3 1 1.
Definition batch2 := BatchNorm1d 16.
Definition pool1 := MaxPool1d 3 3.
Definition conv3 := Conv1d 16 32 3 1 1.
Definition batch3 := BatchNorm1d 32.
Definition conv4 := Conv1d 32 64 3 1 1.
Definition batch4 := BatchNorm1d 64.
Definition pool2 := MaxPool1d 3 3.
Definition conv5 := Conv1d 64 128 3 1 1.
Definition batch5 := BatchNorm1d 128.
Definition conv6 := Conv1d 128 128 3 1 1.
Definition batch6 := BatchNorm1d 128.
Definition pool3 := MaxPool1d 3 3.
Definition fc1 := Linear 71040 1000.
Definition fc2 := Linear 1000 1000.
Definition fc3 := Linear 1000 1.

Definition forward (x : shape) : option (Z * Z) :=
  x ← relu <$> (conv1 x ≫= batch1);
  x ← relu <$> (conv2 x ≫= batch2);
  let x := drop x in
  x ← pool1 x;
  x ← relu <$> (conv3 x ≫= batch3);
  x ← relu <$> (conv4 x ≫= batch4);
  let x := drop x in
  x ← pool2 x;
  x ← relu <$> (conv5 x ≫= batch5);
  x ← relu <$> (conv6 x ≫= batch6);
  let x := drop x in
  x ← pool3 x;
  let x := flatten x in
  x ← relu <$> fc1 x;
  x ← relu <$> fc2 x;
  x ← sigmoid <$> fc3 x;
  Some x.

End CNN_RNN.

(** ** Further sample data *)

(** A dataset whose only entry has no signal in the store. *)
Definition orphan_dataset : ECGDataset.t :=
  {| ECGDataset.metadata := [entry_short];
     ECGDataset.preloaded_data := sample_store;
     ECGDataset.transform := None;
     ECGDataset.target_transform := None |}.

(** A reader that finds no record. *)
Definition failing_rdsamp (p : string) (n : Z) : result matrix := Raise ValueError.

(** * Properties *)

(** ** The monad of generator-reading computations *)

Lemma bind_Ok_inv {A B} (m : M A) (f : A → M B) (st : RandomState)
    (r : B * RandomState) :
  (m ≫= f) st = Ok r → ∃ a st1, m st = Ok (a, st1) ∧ f a st1 = Ok r.
Proof.
  unfold mbind, M_bind. destruct (m st) as [[a st1]|]; [|done]. eauto.
Qed.

Lemma lift_Ok_inv {A} (r : result A) (st st' : RandomState) (a : A) :
  lift r st = Ok (a, st') → r = Ok a ∧ st' = st.
Proof. unfold lift. destruct r; [|done]. by intros [= -> ->]. Qed.

Lemma cursor_advance_by n st : cursor (advance_by n st) = (n + cursor st)%nat.
Proof.
  unfold advance_by. induction n as [|n IH]; [done|].
  rewrite Nat.iter_succ. cbn [advance cursor]. by rewrite IH.
Qed.

(** ** [extend_ts] *)

Section Extension.

Implicit Types (ts ext : matrix) (L : Z).

Lemma broadcast_rows_width w ts : width_is w ts → broadcast_rows w ts = Ok ts.
Proof.
  induction 1 as [|r m Hr _ IH]; [done|].
  cbn. unfold broadcast_row. rewrite decide_True by done. cbn. by rewrite IH.
Qed.

Lemma broadcast_row_Ok w r r' :
  broadcast_row w r = Ok r' → length r' = w.
Proof.
  unfold broadcast_row. destruct (decide (length r = w)); [by intros [= <-]|].
  destruct r as [|x [|??]]; try done. intros [= <-]. by rewrite length_replicate.
Qed.

Lemma broadcast_rows_Ok w ts rows :
  broadcast_rows w ts = Ok rows → length rows = length ts ∧ width_is w rows.
Proof.
  revert rows. induction ts as [|r m IH]; intros rows; cbn.
  - intros [= <-]. split; [done | constructor].
  - destruct (broadcast_row w r) as [r'|] eqn:Hr; [|done]. cbn.
    destruct (broadcast_rows w m) as [m'|]; [|done]. cbn.
    intros [= <-]. destruct (IH m' eq_refl) as [Hl Hw].
    split; [by cbn; rewrite Hl|].
    constructor; [by eapply broadcast_row_Ok | done].
Qed.

Lemma siglength_min L (n : nat) :
  0 ≤ L → Z.to_nat (Z.min L (Z.of_nat n)) = (Z.to_nat L `min` n)%nat.
Proof. lia. Qed.

(** Whatever the input, a returned array has [L] rows of two columns. *)
Lemma extend_ts_Ok_shape ts L ext :
  extend_ts ts L = Ok ext → length ext = Z.to_nat L ∧ width_is 2 ext.
Proof.
  unfold extend_ts, np_zeros.
  destruct (Z.ltb_spec L 0) as [?|HL]; [done|]. cbn.
  unfold shape0, assign_prefix. rewrite siglength_min by done.
  set (k := (Z.to_nat L `min` length ts)%nat).
  destruct (broadcast_rows 2 ts) as [rows|] eqn:Hrows; [|done].
  cbn. intros [= <-].
  apply broadcast_rows_Ok in Hrows as [Hl Hw].
  split.
  - rewrite length_app, length_take, length_drop, length_replicate, Hl. lia.
  - apply Forall_app. split; [by apply Forall_take|].
    apply Forall_drop. by apply Forall_replicate.
Qed.

Lemma extend_ts_eq ts L :
  width_is 2 ts → 0 ≤ L →
  extend_ts ts L =
    Ok (take (Z.to_nat L `min` length ts) ts
        ++ replicate (Z.to_nat L - (Z.to_nat L `min` length ts)) [0; 0]%Q).
Proof.
  intros Hw HL. unfold extend_ts, np_zeros.
  destruct (Z.ltb_spec L 0) as [?|_]; [lia|]. cbn.
  unfold shape0. rewrite siglength_min by done.
  unfold assign_prefix.
  rewrite broadcast_rows_width by done. cbn.
  by rewrite drop_replicate.
Qed.

(** C3.  For a two-lead signal of any number of rows, zero included, and
    any target length [L >= 0], [extend_ts] returns an array of [L] rows
    of two columns: its first [min L samples] rows are those of the
    input, every later row is zero, and input rows from [L] on are
    dropped. *)
Theorem extend_ts_shape ts L :
  width_is 2 ts → 0 ≤ L →
  ∃ out, extend_ts ts L = Ok out
    ∧ length out = Z.to_nat L
    ∧ width_is 2 out
    ∧ take (Z.to_nat L `min` length ts) out
        = take (Z.to_nat L `min` length ts) ts
    ∧ drop (Z.to_nat L `min` length ts) out
        = replicate (Z.to_nat L - Z.to_nat L `min` length ts) [0; 0]%Q.
Proof.
  intros Hw HL. eexists. split; [by apply extend_ts_eq|].
  set (k := (Z.to_nat L `min` length ts)%nat).
  assert (Hk : length (take k ts) = k) by (rewrite length_take; lia).
  repeat split.
  - rewrite length_app, length_replicate, Hk. lia.
  - apply Forall_app. split; [by apply Forall_take|].
    by apply Forall_replicate.
  - by rewrite take_app_length'.
  - by rewrite drop_app_length'.
Qed.

Lemma extend_ts_shape_witness :
  ∃ out, extend_ts two_ones 5 = Ok out
    ∧ length out = 5%nat
    ∧ width_is 2 out
    ∧ take 2 out = two_ones
    ∧ drop 2 out = [[0; 0]; [0; 0]; [0; 0]]%Q.
Proof.
  apply (extend_ts_shape two_ones 5); [repeat constructor | lia].
Defined.

(** C8.  On an array that already has [L] rows of two columns,
    [extend_ts] with target length [L] returns the array itself. *)
Theorem extend_ts_fixed_length ts L :
  width_is 2 ts → Z.of_nat (length ts) = L → extend_ts ts L = Ok ts.
Proof.
  intros Hw <-. rewrite extend_ts_eq by (done || lia).
  rewrite Nat2Z.id, Nat.min_id, Nat.sub_diag, firstn_all. cbn.
  by rewrite app_nil_r.
Qed.

Lemma extend_ts_fixed_length_witness : extend_ts two_ones 2 = Ok two_ones.
Proof.
  apply (extend_ts_fixed_length two_ones 2); [repeat constructor | reflexivity].
Defined.

End Extension.

(** ** The array handed to the transform *)

Section ChannelsFirst.

Implicit Types (m X ext : matrix).

Lemma zip_with_cons_width (n : nat) (r : list Q) m :
  width_is n m → width_is (S n) (zip_with cons r m).
Proof.
  intros Hm. revert r. induction Hm as [|l k Hl _ IH]; intros [|x r]; cbn;
    try by constructor.
  constructor; [by cbn; rewrite Hl | apply IH].
Qed.

Lemma transpose_rows (c : nat) m :
  width_is c m →
  length (foldr (zip_with cons) (replicate c []) m) = c
  ∧ width_is (length m) (foldr (zip_with cons) (replicate c []) m).
Proof.
  induction 1 as [|r m Hr Hm [IHl IHw]]; cbn.
  - split; [by rewrite length_replicate|]. by apply Forall_replicate.
  - split; [rewrite length_zip_with; lia|].
    by apply zip_with_cons_width.
Qed.

Lemma transpose_shape (c : nat) m :
  m ≠ [] → width_is c m →
  length (transpose m) = c ∧ width_is (length m) (transpose m).
Proof.
  intros Hne Hw. unfold transpose.
  destruct m as [|r m]; [done|].
  assert (shape1 (r :: m) = c) as -> by (by inversion Hw).
  by apply transpose_rows.
Qed.

Lemma transpose_single (row : list Q) : transpose [row] = (λ x, [x]) <$> row.
Proof.
  unfold transpose. cbn. generalize (@nil Q).
  induction row as [|x row IH]; intros l; [done|].
  cbn. by rewrite IH.
Qed.

(** The conversion keeps the shape. *)
Lemma astype_float32_shape (c : nat) m :
  width_is c m →
  length (astype_float32 m) = length m ∧ width_is c (astype_float32 m).
Proof.
  intros Hw. unfold astype_float32. change (map ?f ?l) with (f <$> l).
  split; [by rewrite length_fmap|].
  apply Forall_fmap. eapply Forall_impl; [done|].
  intros r Hr. cbn. by rewrite length_map.
Qed.

Lemma cell_astype_float32 m (i j : nat) :
  cell (astype_float32 m) i j = round_to float32 <$> cell m i j.
Proof.
  unfold cell, astype_float32. change (map ?f ?l) with (f <$> l).
  rewrite list_lookup_fmap. destruct (m !! i) as [r|]; [|done]. cbn.
  change (map ?f ?l) with (f <$> l). by rewrite list_lookup_fmap.
Qed.

(** The array that [__getitem__] passes on is 2 x 15000. *)
Lemma channels_first_shape ts ext :
  extend_ts ts 15000 = Ok ext →
  length (transpose (astype_float32 ext)) = 2%nat
  ∧ width_is (Z.to_nat 15000) (transpose (astype_float32 ext))
  ∧ shape1 (transpose (astype_float32 ext)) = Z.to_nat 15000.
Proof.
  intros [Hl Hw]%extend_ts_Ok_shape.
  destruct (astype_float32_shape 2 ext Hw) as [Hla Hwa].
  set (m := astype_float32 ext) in *.
  assert (Hne : m ≠ []) by (intros E; rewrite E in Hla; cbn in Hla; lia).
  destruct (transpose_shape 2 m Hne Hwa) as [Hl' Hw']. rewrite Hla, Hl in Hw'.
  repeat split; [done..|].
  destruct (transpose m) as [|r ?]; [done|]. by inversion Hw'.
Qed.

End ChannelsFirst.

(** ** [scaling] *)

Section Scaling.

Implicit Types (X : matrix) (sigma : Q) (st : RandomState).

Lemma normal_row_spec (loc scale : Q) (n : nat) st :
  normal_row loc scale n st
  = Ok ((λ t, loc + scale * gauss st (cursor st + t)%nat)%Q <$> seq 0 n,
        advance_by n st).
Proof.
  revert st. induction n as [|n IH]; intros st; [done|].
  cbn [normal_row]. unfold mbind, M_bind, randn. rewrite IH. cbn.
  unfold mret, M_ret. do 2 f_equal.
  - f_equal; [by rewrite Nat.add_0_r|].
    rewrite <- fmap_S_seq, <- list_fmap_compose.
    apply list_fmap_ext. intros _ t _. cbn. by rewrite Nat.add_succ_r.
  - unfold advance_by. by rewrite <- Nat.iter_succ_r.
Qed.

Lemma matmul_ones (n : nat) (row : list Q) :
  np_matmul (np_ones n 1) [row]
  = Ok (replicate n ((λ x, dot [1%Q] [x]) <$> row)).
Proof.
  unfold np_matmul, np_ones. rewrite decide_True by (by apply Forall_replicate).
  f_equal. rewrite transpose_single.
  change (map ?f ?l) with (f <$> l). rewrite fmap_replicate. f_equal.
  change (map ?f ?l) with (f <$> l). by rewrite <- list_fmap_compose.
Qed.

(** For a deviation that is not negative, each row of [X] is multiplied,
    entry by entry, by the same row of noise, which has one factor per
    column. *)
Lemma scaling_eq X sigma st :
  Qle_bool 0 sigma = true →
  scaling X sigma st
  = Ok ((λ xr, zip_with Qmult xr (noise_row sigma st (shape1 X))) <$> X,
        advance_by (shape1 X) st).
Proof.
  intros Hsigma. unfold scaling, np_random_normal. rewrite Hsigma.
  unfold mbind, M_bind.
  rewrite normal_row_spec. cbn. unfold lift. rewrite matmul_ones.
  unfold mret, M_ret. do 2 f_equal.
  unfold np_multiply, shape0. rewrite zip_with_replicate_r_eq by done.
  unfold noise_row, flip. by rewrite <- list_fmap_compose.
Qed.

(** A negative deviation is refused before anything is drawn. *)
Lemma scaling_negative_sigma X sigma st :
  Qle_bool 0 sigma = false → scaling X sigma st = Raise ValueError.
Proof.
  intros Hsigma. unfold scaling, np_random_normal. by rewrite Hsigma.
Qed.

Lemma cell_scaling X sigma st (c i j : nat) :
  width_is c X →
  cell ((λ xr, zip_with Qmult xr (noise_row sigma st c)) <$> X) i j
  = (λ x, (x * dot [1%Q] [factor sigma st j])%Q) <$> cell X i j.
Proof.
  intros Hw. unfold cell. rewrite list_lookup_fmap.
  destruct (X !! i) as [xr|] eqn:Hi; [|done]. cbn.
  rewrite lookup_zip_with. destruct (xr !! j) as [x|] eqn:Hj; [|done]. cbn.
  assert (j < c)%nat.
  { apply lookup_lt_Some in Hj. eapply Forall_lookup_1 in Hw; [|done].
    cbn in Hw. lia. }
  unfold noise_row. by rewrite list_lookup_fmap, lookup_seq_lt by done.
Qed.

Lemma width_scaling X sigma st (c : nat) :
  width_is c X →
  width_is c ((λ xr, zip_with Qmult xr (noise_row sigma st c)) <$> X).
Proof.
  intros Hw. apply Forall_fmap. eapply Forall_impl; [done|].
  intros r Hr. unfold compose, noise_row. cbn beta in *.
  rewrite length_zip_with, length_fmap, length_seq. lia.
Qed.

Lemma dot_single (x : Q) : (dot [1] [x] == x)%Q.
Proof. unfold dot. cbn. ring. Qed.

(** C1.  The code at the recording [two_ones]: the array that
    [__getitem__] builds holds 1 in channel 0 at time steps 0 and 1; with
    the first normal sample at 10 and the next at 0, [scaling] returns 2
    and 1 there.  The factors belong to the time steps, so no single
    factor serves channel 0, which the claim requires. *)
Lemma scaling_not_per_channel :
  ∃ out st' y0 y1,
    extend_ts two_ones 15000 = Ok two_ones_extended
    ∧ scaling (transpose (astype_float32 two_ones_extended)) (1 # 10) first_gauss_ten
        = Ok (out, st')
    ∧ cell (transpose (astype_float32 two_ones_extended)) 0 0 = Some 1%Q
    ∧ cell (transpose (astype_float32 two_ones_extended)) 0 1 = Some 1%Q
    ∧ cell out 0 0 = Some y0 ∧ (y0 == 2)%Q
    ∧ cell out 0 1 = Some y1 ∧ (y1 == 1)%Q
    ∧ ¬ per_channel_factor (transpose (astype_float32 two_ones_extended)) out.
Proof.
  assert (Hext : extend_ts two_ones 15000 = Ok two_ones_extended)
    by (vm_compute; reflexivity).
  destruct (channels_first_shape _ _ Hext) as (_ & Hw & Hc).
  set (X := transpose (astype_float32 two_ones_extended)) in *.
  assert (H00 : cell X 0 0 = Some 1%Q) by (vm_compute; reflexivity).
  assert (H01 : cell X 0 1 = Some 1%Q) by (vm_compute; reflexivity).
  eexists _, _, _, _. split; [done|].
  split; [by rewrite scaling_eq, Hc|].
  split; [done|]. split; [done|].
  rewrite !cell_scaling, H00, H01 by done. cbn [fmap option_fmap option_map].
  split; [done|]. split; [by vm_compute|].
  split; [done|]. split; [by vm_compute|].
  intros [f Hf].
  pose proof (Hf 0%nat 0%nat _ _ H00 eq_refl) as E0.
  pose proof (Hf 0%nat 1%nat _ _ H01 eq_refl) as E1.
  rewrite !dot_single in E0, E1.
  assert (factor (1 # 10) first_gauss_ten 0 == 2)%Q as F0 by (by vm_compute).
  assert (factor (1 # 10) first_gauss_ten 1 == 1)%Q as F1 by (by vm_compute).
  rewrite F0 in E0. rewrite F1 in E1. rewrite !Qmult_1_l in E0, E1.
  rewrite <- E0 in E1. by vm_compute in E1.
Qed.

End Scaling.

(** ** [shift] *)

Section Shift.

Implicit Types (sig : matrix) (interval : Z) (st : RandomState).

Lemma offset_at_range interval st t :
  0 < interval → - interval ≤ offset_at interval st t < interval.
Proof.
  intros Hi. unfold offset_at.
  pose proof (Nat.mod_upper_bound (uniform st (cursor st + t)%nat)
                (Z.to_nat (interval - - interval))).
  lia.
Qed.

Lemma offset_at_advance interval st t :
  offset_at interval (advance st) t = offset_at interval st (S t).
Proof. unfold offset_at. cbn. by rewrite Nat.add_succ_r. Qed.

Lemma choice_range interval st :
  0 < interval →
  np_random_choice (py_range (- interval) interval) st
  = Ok (offset_at interval st 0, advance st).
Proof.
  intros Hi. unfold np_random_choice, py_range, offset_at.
  rewrite length_seqZ, Nat.add_0_r.
  rewrite lookup_seqZ_lt; [done|].
  pose proof (Nat.mod_upper_bound (uniform st (cursor st))
                (Z.to_nat (interval - - interval))).
  lia.
Qed.

Lemma cell_add_to_column (dt : dtype) sig (col : nat) (v : Q) (i j : nat) :
  cell (add_to_column dt sig col v) i j
  = (λ x, if decide (j = col) then round_to dt (x + round_to dt v) else x)
      <$> cell sig i j.
Proof.
  unfold cell, add_to_column. change (map ?f ?l) with (f <$> l).
  rewrite list_lookup_fmap. destruct (sig !! i) as [r|]; [|done]. cbn.
  destruct (decide (j = col)) as [->|Hne].
  - rewrite list_lookup_alter_eq. by destruct (r !! col).
  - rewrite list_lookup_alter_ne by done. by destruct (r !! j).
Qed.

Lemma add_to_column_shape (dt : dtype) (c : nat) sig (col : nat) (v : Q) :
  width_is c sig →
  length (add_to_column dt sig col v) = length sig
  ∧ width_is c (add_to_column dt sig col v).
Proof.
  intros Hw. unfold add_to_column. change (map ?f ?l) with (f <$> l).
  split; [by rewrite length_fmap|].
  apply Forall_fmap. eapply Forall_impl; [done|].
  intros r Hr. cbn. by rewrite length_alter.
Qed.

(** The loop over the columns [a .. a+n-1]: column [j] of that range
    receives the bias of the draw number [j - a], rounded into the type of
    the array, every other column is unchanged. *)
Lemma shift_loop_spec (dt : dtype) interval (c n : nat) :
  0 < interval →
  ∀ (a : nat) sig st,
    width_is c sig →
    ∃ out, shift_loop dt (seq a n) interval sig st = Ok (out, advance_by n st)
      ∧ length out = length sig
      ∧ width_is c out
      ∧ ∀ i j, cell out i j
          = (λ x, if decide (a ≤ j < a + n)%nat
                  then round_to dt
                         (x + round_to dt (bias_of (offset_at interval st (j - a))))
                  else x) <$> cell sig i j.
Proof.
  intros Hi. induction n as [|n IH]; intros a sig st Hw.
  - exists sig. repeat split; [done|].
    intros i j. destruct (cell sig i j); [|done].
    cbn [fmap option_fmap option_map]. by rewrite decide_False by lia.
  - cbn [seq shift_loop]. unfold mbind, M_bind.
    rewrite choice_range by done.
    set (v := bias_of (offset_at interval st 0)).
    destruct (add_to_column_shape dt c sig a v Hw) as [Hl' Hw'].
    destruct (IH (S a) (add_to_column dt sig a v) (advance st) Hw')
      as (out & Hrun & Hlen & Hwo & Hcell).
    exists out. split; [|split; [|split]].
    + rewrite Hrun. unfold advance_by. by rewrite <- Nat.iter_succ_r.
    + by rewrite Hlen.
    + done.
    + intros i j. rewrite Hcell, cell_add_to_column.
      destruct (cell sig i j) as [x|]; [|done].
      cbn [fmap option_fmap option_map]. f_equal.
      destruct (decide (j = a)) as [->|Hne].
      * rewrite decide_False by lia. rewrite decide_True by lia.
        by rewrite Nat.sub_diag.
      * destruct (decide (S a ≤ j < S a + n)%nat).
        -- rewrite decide_True by lia. rewrite offset_at_advance.
           by replace (S (j - S a)) with (j - a)%nat by lia.
        -- by rewrite decide_False by lia.
Qed.

(** C2.  The code at the recording [two_halves]: the float32 array that
    [__getitem__] builds holds 1/2 in channel 0 at time steps 0 and 1; with
    the first raw integer at 0 and the next at 20 the offsets drawn for
    the two time steps are -20 and 0, and [shift] returns
    16106127/33554432 (0.47999998927...) and 1/2 there.  The biases belong
    to the time steps, so no single bias serves channel 0, which the claim
    requires; and the first sample has moved by more than 20/1000. *)
Lemma shift_not_per_channel :
  ∃ out st',
    extend_ts two_halves 15000 = Ok two_halves_extended
    ∧ shift float32 (transpose (astype_float32 two_halves_extended)) 20
        first_uniform_zero
      = Ok (out, st')
    ∧ offset_at 20 first_uniform_zero 0 = -20
    ∧ offset_at 20 first_uniform_zero 1 = 0
    ∧ cell (transpose (astype_float32 two_halves_extended)) 0 0 = Some (1 # 2)%Q
    ∧ cell (transpose (astype_float32 two_halves_extended)) 0 1 = Some (1 # 2)%Q
    ∧ cell out 0 0 = Some (16106127 # 33554432)%Q
    ∧ cell out 0 1 = Some (1 # 2)%Q
    ∧ (20 # 1000 < Qabs ((16106127 # 33554432) - (1 # 2)))%Q
    ∧ ¬ per_channel_bias (transpose (astype_float32 two_halves_extended)) out.
Proof.
  assert (Hext : extend_ts two_halves 15000 = Ok two_halves_extended)
    by (vm_compute; reflexivity).
  destruct (channels_first_shape _ _ Hext) as (_ & Hw & Hc).
  set (X := transpose (astype_float32 two_halves_extended)) in *.
  assert (H00 : cell X 0 0 = Some (1 # 2)%Q) by (vm_compute; reflexivity).
  assert (H01 : cell X 0 1 = Some (1 # 2)%Q) by (vm_compute; reflexivity).
  destruct (shift_loop_spec float32 20 _ (Z.to_nat 15000) eq_refl 0%nat X
              first_uniform_zero Hw) as (out & Hrun & _ & _ & Hcell).
  pose proof (Hcell 0%nat 0%nat) as C0. pose proof (Hcell 0%nat 1%nat) as C1.
  rewrite H00 in C0. rewrite H01 in C1.
  cbn [fmap option_fmap option_map] in C0, C1.
  rewrite decide_True in C0 by (vm_compute; split; [done | lia]).
  rewrite decide_True in C1 by (vm_compute; split; lia).
  assert (E0 : round_to float32
                 ((1 # 2) + round_to float32
                              (bias_of (offset_at 20 first_uniform_zero (0 - 0))))
               = (16106127 # 33554432)%Q) by (vm_compute; reflexivity).
  assert (E1 : round_to float32
                 ((1 # 2) + round_to float32
                              (bias_of (offset_at 20 first_uniform_zero (1 - 0))))
               = (1 # 2)%Q) by (vm_compute; reflexivity).
  rewrite E0 in C0. rewrite E1 in C1.
  exists out, (advance_by (Z.to_nat 15000) first_uniform_zero).
  split; [done|]. split; [by unfold shift; rewrite Hc|].
  split; [by vm_compute|]. split; [by vm_compute|].
  split; [done|]. split; [done|]. split; [done|]. split; [done|].
  split; [by vm_compute|].
  intros [b Hb].
  pose proof (Hb 0%nat 0%nat _ _ H00 C0) as B0.
  pose proof (Hb 0%nat 1%nat _ _ H01 C1) as B1.
  assert (b 0%nat == 0)%Q as Bz.
  { assert (E : (b 0%nat == (1 # 2) + b 0%nat - (1 # 2))%Q) by ring.
    rewrite E, <- B1. by vm_compute. }
  rewrite Bz in B0. by vm_compute in B0.
Qed.

End Shift.

(** ** [insert_ones] *)

Section InsertOnes.

Implicit Types (y : vector) (end_step_x : Z).

(** After the iterations [0 .. n-1] the vector has its length and holds 1
    at every position below [n] that it has. *)
Lemma insert_ones_loop y (n : nat) :
  length (foldl write_one y (seqZ 0 (Z.of_nat n))) = length y
  ∧ ∀ i : nat, foldl write_one y (seqZ 0 (Z.of_nat n)) !! i
       = if decide (i < n)%nat then (λ _, 1%Q) <$> y !! i else y !! i.
Proof.
  induction n as [|n [IHl IHc]].
  - split; [done|]. intros i. by rewrite decide_False by lia.
  - rewrite seqZ_S, foldl_app. cbn [foldl].
    set (y' := foldl write_one y (seqZ 0 (Z.of_nat n))) in *.
    unfold write_one. rewrite Z.add_0_l, Nat2Z.id.
    destruct (Z.ltb_spec (Z.of_nat n) (Z.of_nat (length y'))) as [Hlt|Hge].
    + split; [by rewrite length_insert|]. intros i.
      destruct (decide (i = n)) as [->|Hne].
      * rewrite list_lookup_insert_eq by lia. rewrite decide_True by lia.
        by destruct (lookup_lt_is_Some_2 y n) as [x ->]; [lia|].
      * rewrite list_lookup_insert_ne by done. rewrite IHc.
        destruct (decide (i < n)%nat); [by rewrite decide_True by lia|].
        by rewrite decide_False by lia.
    + split; [done|]. intros i. rewrite IHc.
      destruct (decide (i < n)%nat); [by rewrite decide_True by lia|].
      destruct (decide (i < S n)%nat); [|done].
      assert (i = n) as -> by lia.
      by rewrite (lookup_ge_None_2 y n) by lia.
Qed.

Lemma insert_ones_unfold y end_step_x :
  insert_ones y end_step_x
  = foldl write_one y (seqZ 0 (Z.of_nat (Z.to_nat (end_step_y_of end_step_x + 1)))).
Proof.
  unfold insert_ones, py_range, seqZ. by rewrite Z.sub_0_r, Nat2Z.id.
Qed.

(** C4.  For a non-negative offset [insert_ones] computes the bound
    [floor(end_step_x * 1000 / 15000)], keeps the length of [y], sets
    [y[i]] to 1 at every index [i] up to and including the bound that
    [y] has, and leaves every index beyond the bound as it was. *)
Theorem insert_ones_spec y end_step_x :
  0 ≤ end_step_x →
  end_step_y_of end_step_x = (end_step_x * 1000) / 15000
  ∧ length (insert_ones y end_step_x) = length y
  ∧ ∀ i : nat,
      (Z.of_nat i ≤ (end_step_x * 1000) / 15000 → (i < length y)%nat →
         insert_ones y end_step_x !! i = Some 1%Q)
      ∧ ((end_step_x * 1000) / 15000 < Z.of_nat i →
         insert_ones y end_step_x !! i = y !! i).
Proof.
  intros Hx.
  assert (Hq : end_step_y_of end_step_x = (end_step_x * 1000) / 15000).
  { unfold end_step_y_of. apply Z.quot_div_nonneg; lia. }
  assert (0 ≤ (end_step_x * 1000) / 15000) by (apply Z.div_pos; lia).
  split; [done|]. rewrite insert_ones_unfold, Hq.
  destruct (insert_ones_loop y (Z.to_nat ((end_step_x * 1000) / 15000 + 1)))
    as [Hl Hc].
  split; [done|]. intros i. rewrite Hc. split.
  - intros Hi Hlen. rewrite decide_True by lia.
    by destruct (lookup_lt_is_Some_2 y i) as [v ->].
  - intros Hi. by rewrite decide_False by lia.
Qed.

Lemma insert_ones_spec_witness :
  end_step_y_of 30 = 2
  ∧ length (insert_ones [0; 0; 0; 0; 0]%Q 30) = 5%nat
  ∧ ∀ i : nat,
      (Z.of_nat i ≤ 2 → (i < 5)%nat →
         insert_ones [0; 0; 0; 0; 0]%Q 30 !! i = Some 1%Q)
      ∧ (2 < Z.of_nat i →
         insert_ones [0; 0; 0; 0; 0]%Q 30 !! i = [0; 0; 0; 0; 0]%Q !! i).
Proof. apply (insert_ones_spec [0; 0; 0; 0; 0]%Q 30). lia. Defined.

(** C9.  For an offset between -14 and -1, the sentinel -1 included,
    the conversion truncates toward zero and gives 0, so [insert_ones]
    sets index 0 of a non-empty vector to 1. *)
Theorem insert_ones_sentinel y end_step_x :
  -14 ≤ end_step_x ≤ -1 → y ≠ [] →
  end_step_y_of end_step_x = 0
  ∧ insert_ones y end_step_x = <[0%nat := 1%Q]> y
  ∧ insert_ones y end_step_x !! 0%nat = Some 1%Q.
Proof.
  intros Hx Hy.
  assert (Hq : end_step_y_of end_step_x = 0).
  { unfold end_step_y_of.
    rewrite <- (Z.opp_involutive (end_step_x * 1000)), Z.quot_opp_l by lia.
    by rewrite Z.quot_small by lia. }
  assert (insert_ones y end_step_x = <[0%nat := 1%Q]> y) as ->.
  { unfold insert_ones. rewrite Hq. cbn. by destruct y. }
  repeat split; [done|]. by destruct y.
Qed.

Lemma insert_ones_sentinel_witness :
  end_step_y_of (-1) = 0
  ∧ insert_ones [0; 0; 0]%Q (-1) = [1; 0; 0]%Q
  ∧ insert_ones [0; 0; 0]%Q (-1) !! 0%nat = Some 1%Q.
Proof. apply (insert_ones_sentinel [0; 0; 0]%Q (-1)); [lia | done]. Defined.

End InsertOnes.

(** ** [ECGDataset] *)

Section Adapter.

Implicit Types (self : ECGDataset.t) (idx : Z) (st : RandomState).

Lemma py_index_Ok_elem {A} (l : list A) (i : Z) (x : A) :
  py_index l i = Ok x → x ∈ l.
Proof.
  unfold py_index. destruct (_ && _); [|done].
  destruct (l !! _) as [x'|] eqn:Hx; [|done].
  intros [= <-]. by eapply list_elem_of_lookup_2.
Qed.

Lemma py_index_negative {A} (l : list A) (i : Z) :
  - Z.of_nat (length l) ≤ i < 0 →
  py_index l i = py_index l (Z.of_nat (length l) + i)
  ∧ ∃ x, l !! Z.to_nat (Z.of_nat (length l) + i) = Some x ∧ py_index l i = Ok x.
Proof.
  intros Hi. unfold py_index.
  destruct (Z.ltb_spec i 0) as [_|?]; [|lia].
  destruct (Z.ltb_spec (Z.of_nat (length l) + i) 0) as [?|_]; [lia|].
  rewrite (Z.add_comm i). split; [done|].
  destruct (Z.leb_spec 0 (Z.of_nat (length l) + i)) as [_|?]; [|lia].
  destruct (Z.ltb_spec (Z.of_nat (length l) + i) (Z.of_nat (length l)))
    as [_|?]; [|lia].
  cbn. destruct (lookup_lt_is_Some_2 l (Z.to_nat (Z.of_nat (length l) + i)))
    as [x Hx]; [lia|].
  exists x. by rewrite Hx.
Qed.

(** Without augmentation [__getitem__] does not read the generator. *)
Lemma getitem_plain self idx st :
  no_augmentation self →
  ECGDataset.getitem self idx st = lift (plain_item self idx) st.
Proof.
  intros [Htr Htt].
  unfold ECGDataset.getitem, plain_item, mbind, M_bind, result_bind, lift.
  destruct (py_index (ECGDataset.metadata self) idx) as [entry|]; [|done].
  destruct (py_getitem _ (path entry)) as [raw|]; [|done].
  destruct (extend_ts raw 15000) as [ext|]; [|done].
  rewrite Htt. by destruct Htr as [-> | ->].
Qed.

Lemma plain_item_Ok self idx (entry : entry) :
  store_ready self →
  py_index (ECGDataset.metadata self) idx = Ok entry →
  ∃ sig, plain_item self idx
           = Ok (sig, [inject_Z (class entry)],
                 match af_ends entry with [] => -1 | e :: _ => e end)
    ∧ length sig = 2%nat ∧ width_is (Z.to_nat 15000) sig.
Proof.
  intros Hready Hentry. unfold plain_item, mbind, result_bind, py_getitem.
  rewrite Hentry. apply py_index_Ok_elem in Hentry.
  eapply Forall_forall in Hready as (raw & Hraw & Hw); [|done].
  rewrite Hraw.
  assert (Hext := extend_ts_eq raw 15000 Hw ltac:(lia)).
  rewrite Hext. eexists. split; [done|].
  by destruct (channels_first_shape raw _ Hext) as (? & ? & _).
Qed.

Lemma broadcast_rows_not_IndexError (w : nat) (m : matrix) :
  broadcast_rows w m ≠ Raise IndexError.
Proof.
  induction m as [|r m IH]; [done|]. cbn [broadcast_rows].
  unfold mbind, result_bind, broadcast_row.
  destruct (decide (length r = w)).
  - by destruct (broadcast_rows w m) as [?|[]].
  - destruct r as [|? [|??]]; [done| |done].
    by destruct (broadcast_rows w m) as [?|[]].
Qed.

Lemma extend_ts_not_IndexError (ts : matrix) (L : Z) :
  extend_ts ts L ≠ Raise IndexError.
Proof.
  unfold extend_ts, np_zeros, mbind, result_bind, assign_prefix.
  destruct (L <? 0); [done|].
  match goal with |- context [broadcast_rows ?w ?m] =>
    pose proof (broadcast_rows_not_IndexError w m);
    by destruct (broadcast_rows w m) as [?|[]] end.
Qed.

Lemma plain_item_not_IndexError self i :
  - ECGDataset.len self ≤ i < 0 → plain_item self i ≠ Raise IndexError.
Proof.
  intros Hi. unfold plain_item, mbind, result_bind, py_getitem.
  destruct (py_index_negative (ECGDataset.metadata self) i Hi)
    as (_ & x & _ & ->).
  destruct (_ !! path x) as [raw|]; [|done].
  pose proof (extend_ts_not_IndexError raw 15000).
  by destruct (extend_ts raw 15000) as [?|[]].
Qed.

Lemma getitem_inv self idx st st' (sig : matrix) (label : vector) (e : Z) :
  ECGDataset.getitem self idx st = Ok (sig, label, e, st') →
  ∃ entry, py_index (ECGDataset.metadata self) idx = Ok entry
    ∧ is_Some (ECGDataset.preloaded_data self !! path entry)
    ∧ e = match af_ends entry with [] => -1 | a :: _ => a end.
Proof.
  unfold ECGDataset.getitem. intros H.
  apply bind_Ok_inv in H as (entry & st1 & [Hentry ->]%lift_Ok_inv & H).
  apply bind_Ok_inv in H as (raw & st2 & [Hraw ->]%lift_Ok_inv & H).
  apply bind_Ok_inv in H as (ext & st3 & _ & H).
  apply bind_Ok_inv in H as (sig1 & st4 & _ & H).
  apply bind_Ok_inv in H as (label1 & st5 & _ & H).
  injection H as <- <- <- <-.
  exists entry. split; [done|]. split; [|done].
  unfold py_getitem in Hraw.
  by destruct (ECGDataset.preloaded_data self !! path entry).
Qed.

Lemma sample_store_A :
  sample_store !! "A" = Some (replicate (Z.to_nat 20000) [1; 1]%Q).
Proof. unfold sample_store. by rewrite lookup_insert_eq. Qed.

Lemma sample_store_B :
  sample_store !! "B" = Some (replicate (Z.to_nat 100) [0; 0]%Q).
Proof.
  unfold sample_store. rewrite lookup_insert_ne by done.
  by rewrite lookup_insert_eq.
Qed.

Lemma sample_dataset_ready : store_ready sample_dataset.
Proof.
  repeat constructor.
  - eexists. split; [apply sample_store_A | by apply Forall_replicate].
  - eexists. split; [apply sample_store_B | by apply Forall_replicate].
Qed.

(** The two end-to-end scenarios. *)
Example getitem_scenario_A st :
  ECGDataset.getitem sample_dataset 0 st
  = Ok (replicate 2 (replicate (Z.to_nat 15000) 1%Q), [1%Q], 5000, st).
Proof. vm_compute. reflexivity. Qed.

Example getitem_scenario_B st :
  ECGDataset.getitem sample_dataset 1 st
  = Ok (replicate 2 (replicate (Z.to_nat 15000) 0%Q), [0%Q], -1, st).
Proof. vm_compute. reflexivity. Qed.

End Adapter.

Section AdapterClaims.

Implicit Types (self : ECGDataset.t) (idx : Z) (st : RandomState).

(** What the offset of a returned triple is, whatever [af_ends]
    holds. *)
Lemma getitem_event_offset self idx (entry : entry) :
  py_index (ECGDataset.metadata self) idx = Ok entry →
  (∀ st (sig : matrix) (label : vector) (e : Z) st',
     ECGDataset.getitem self idx st = Ok (sig, label, e, st') →
     (af_ends entry = [] → e = -1)
     ∧ (∀ a rest, af_ends entry = a :: rest → e = a)
     ∧ (e = -1 ↔ af_ends entry = [] ∨ ∃ rest, af_ends entry = -1 :: rest))
  ∧ (no_augmentation self → store_ready self →
     ∀ st, ∃ (sig : matrix) (label : vector),
       ECGDataset.getitem self idx st
       = Ok (sig, label, match af_ends entry with [] => -1 | a :: _ => a end, st)).
Proof.
  intros Hentry. split.
  - intros st sig label e st' Hget.
    apply getitem_inv in Hget as (entry' & Hentry' & _ & ->).
    rewrite Hentry in Hentry'. injection Hentry' as <-.
    destruct (af_ends entry) as [|a rest].
    + split; [done|]. split; [done|]. split; [by left | done].
    + split; [done|]. split; [by intros ?? [= -> _]|].
      split; [intros ->; right; eauto | by intros [?|[? [= -> _]]]].
  - intros Hna Hready st.
    destruct (plain_item_Ok self idx entry Hready Hentry) as (sig & Hp & _).
    rewrite getitem_plain, Hp by done. by eexists _, _.
Qed.

(** C5.  For a valid index whose entry holds AF end offsets that are
    sample indices, hence not negative, the offset of the returned triple
    is -1 if and only if [af_ends] is empty, and it is the first element
    of [af_ends] whenever the list is not empty.  With a ready store and
    no augmentation the triple is returned. *)
Theorem getitem_offset_sentinel self idx (entry : entry) :
  py_index (ECGDataset.metadata self) idx = Ok entry →
  Forall (λ a, 0 ≤ a) (af_ends entry) →
  (∀ st (sig : matrix) (label : vector) (e : Z) st',
     ECGDataset.getitem self idx st = Ok (sig, label, e, st') →
     (e = -1 ↔ af_ends entry = [])
     ∧ (∀ a rest, af_ends entry = a :: rest → e = a))
  ∧ (no_augmentation self → store_ready self →
     ∀ st, ∃ (sig : matrix) (label : vector),
       ECGDataset.getitem self idx st
       = Ok (sig, label, match af_ends entry with [] => -1 | a :: _ => a end, st)).
Proof.
  intros Hentry Hpos.
  destruct (getitem_event_offset self idx entry Hentry) as [Hoff Hret].
  split; [|done].
  intros st sig label e st' Hget.
  destruct (Hoff st sig label e st' Hget) as (Hnil & Hcons & Hiff).
  split; [|done]. split.
  - intros He. apply Hiff in He as [?|[rest Hrest]]; [done|].
    rewrite Hrest in Hpos. apply Forall_cons in Hpos as [? _]. lia.
  - done.
Qed.

Lemma getitem_offset_sentinel_witness :
  (∀ st (sig : matrix) (label : vector) (e : Z) st',
     ECGDataset.getitem sample_dataset 0 st = Ok (sig, label, e, st') →
     (e = -1 ↔ af_ends entry_A = [])
     ∧ (∀ a rest, af_ends entry_A = a :: rest → e = a))
  ∧ (no_augmentation sample_dataset → store_ready sample_dataset →
     ∀ st, ∃ (sig : matrix) (label : vector),
       ECGDataset.getitem sample_dataset 0 st = Ok (sig, label, 5000, st)).
Proof.
  apply (getitem_offset_sentinel sample_dataset 0 entry_A).
  - reflexivity.
  - repeat constructor. lia.
Defined.

(** C7.  [transform] with [train=False] returns its input and leaves
    the generator alone; and when no augmentation is attached,
    [__getitem__] on a given index is a fixed outcome [r] that does not
    depend on the generator: two calls in a row give the same triple
    twice and leave the generator as it was. *)
Theorem evaluation_is_deterministic self idx :
  no_augmentation self →
  (∀ (sig : matrix) st, transform sig false st = Ok (sig, st))
  ∧ ∃ r : result (matrix * vector * Z),
      (∀ st, ECGDataset.getitem self idx st = lift r st)
      ∧ ∀ st, (a ← ECGDataset.getitem self idx;
               b ← ECGDataset.getitem self idx;
               mret (a, b)) st
              = lift (a ← r; Ok (a, a)) st.
Proof.
  intros Hna. split; [done|]. exists (plain_item self idx).
  split; [by intros; apply getitem_plain|].
  intros st. unfold mbind at 1 2, M_bind.
  rewrite getitem_plain by done.
  destruct (plain_item self idx) as [a|e] eqn:Hp; [|done]. cbn [lift].
  rewrite getitem_plain, Hp by done. done.
Qed.

Lemma evaluation_is_deterministic_witness :
  (∀ (sig : matrix) st, transform sig false st = Ok (sig, st))
  ∧ ∃ r : result (matrix * vector * Z),
      (∀ st, ECGDataset.getitem sample_dataset 1 st = lift r st)
      ∧ ∀ st, (a ← ECGDataset.getitem sample_dataset 1;
               b ← ECGDataset.getitem sample_dataset 1;
               mret (a, b)) st
              = lift (a ← r; Ok (a, a)) st.
Proof.
  apply (evaluation_is_deterministic sample_dataset 1).
  split; [left|]; reflexivity.
Defined.

(** C10.  For a negative index [i] with [-length() <= i < 0] the lookup
    in the metadata follows Python's rule: [__getitem__] at [i] is
    [__getitem__] at [length() + i], the entry at that position is
    found, no IndexError is raised, and with a ready store the triple of
    that entry is returned. *)
Theorem getitem_negative_index self (i : Z) st :
  - ECGDataset.len self ≤ i < 0 →
  ECGDataset.getitem self i st
    = ECGDataset.getitem self (ECGDataset.len self + i) st
  ∧ (∃ entry,
       ECGDataset.metadata self !! Z.to_nat (ECGDataset.len self + i) = Some entry
       ∧ py_index (ECGDataset.metadata self) i = Ok entry
       ∧ (no_augmentation self → store_ready self →
          ∃ (sig : matrix),
            ECGDataset.getitem self i st
            = Ok (sig, [inject_Z (class entry)],
                  match af_ends entry with [] => -1 | a :: _ => a end, st)))
  ∧ (no_augmentation self → ECGDataset.getitem self i st ≠ Raise IndexError).
Proof.
  intros Hi.
  destruct (py_index_negative (ECGDataset.metadata self) i Hi)
    as (Heq & entry & Hlook & Hentry).
  split; [|split].
  - unfold ECGDataset.getitem, ECGDataset.len. by rewrite Heq.
  - exists entry. split; [done|]. split; [done|].
    intros Hna Hready.
    destruct (plain_item_Ok self i entry Hready Hentry) as (sig & Hp & _).
    rewrite getitem_plain, Hp by done. by eexists.
  - intros Hna. rewrite getitem_plain by done.
    pose proof (plain_item_not_IndexError self i Hi).
    unfold lift. destruct (plain_item self i) as [a|e]; [done|].
    intros [= ->]. by apply H.
Qed.

Lemma getitem_negative_index_witness :
  ECGDataset.getitem sample_dataset (-1) first_gauss_ten
    = ECGDataset.getitem sample_dataset (2 + -1) first_gauss_ten
  ∧ (∃ entry,
       ECGDataset.metadata sample_dataset !! Z.to_nat (2 + -1) = Some entry
       ∧ py_index (ECGDataset.metadata sample_dataset) (-1) = Ok entry
       ∧ (no_augmentation sample_dataset → store_ready sample_dataset →
          ∃ (sig : matrix),
            ECGDataset.getitem sample_dataset (-1) first_gauss_ten
            = Ok (sig, [inject_Z (class entry)],
                  match af_ends entry with [] => -1 | a :: _ => a end,
                  first_gauss_ten)))
  ∧ (no_augmentation sample_dataset →
     ECGDataset.getitem sample_dataset (-1) first_gauss_ten ≠ Raise IndexError).
Proof.
  apply (getitem_negative_index sample_dataset (-1) first_gauss_ten).
  vm_compute. split; [discriminate | reflexivity].
Defined.

End AdapterClaims.

(** ** [get_preloaded_data] *)

Section LoaderFacts.

Variable rdsamp : string → Z → result matrix.

Lemma preload_keys (entries : list entry) (s0 s : gmap string matrix) :
  preload rdsamp entries s0 = Ok s →
  ∀ k, is_Some (s !! k) ↔ is_Some (s0 !! k) ∨ k ∈ path <$> entries.
Proof.
  revert s0. induction entries as [|e entries IH]; intros s0; cbn.
  - intros [= ->] k. rewrite elem_of_nil. tauto.
  - unfold mbind, result_bind.
    destruct (rdsamp (path e) (50000 `min` sig_len e)) as [sig|]; [|done].
    intros Hs k. rewrite (IH _ Hs k), elem_of_cons, lookup_insert_is_Some.
    clear IH Hs. destruct (decide (path e = k)) as [<-|Hne].
    + split; auto.
    + split.
      * intros [[?|[_ ?]]|?]; [done|by left|by right; right].
      * intros [?|[?|?]]; [by left; right|congruence|by right].
Qed.

Lemma preload_total (entries : list entry) (s0 : gmap string matrix) :
  (∀ e, e ∈ entries → is_Ok (rdsamp (path e) (50000 `min` sig_len e))) →
  is_Ok (preload rdsamp entries s0).
Proof.
  revert s0. induction entries as [|e entries IH]; intros s0 Hrd; cbn.
  - by eexists.
  - destruct (Hrd e) as [sig ->]; [by left|]. cbn.
    apply IH. intros e' He'. apply Hrd. by right.
Qed.

Lemma py_take_prefix {A} (l : list A) (stop : Z) : ∃ n, py_take l stop = take n l.
Proof. unfold py_take. destruct (stop <? 0); eauto. Qed.

(** C6.  Whenever [get_preloaded_data] returns, every returned entry has
    a class other than 2 and its path is a key of the returned store;
    the store has no key besides the paths of the returned entries; and
    it does return when the reader succeeds on the records it is asked
    for. *)
Theorem get_preloaded_data_invariant
    (metadata_json : list (string * entry)) (limit : option Z) :
  (∀ (metadata : list entry) (preloaded_data : gmap string matrix),
     get_preloaded_data rdsamp metadata_json limit = Ok (metadata, preloaded_data) →
     Forall (λ e, class e ≠ 2 ∧ is_Some (preloaded_data !! path e)) metadata
     ∧ (∀ k, is_Some (preloaded_data !! k) → ∃ e, e ∈ metadata ∧ path e = k)
     ∧ Forall (λ e, e ∈ metadata_json.*2) metadata)
  ∧ ((∀ p n, is_Ok (rdsamp p n)) →
     is_Ok (get_preloaded_data rdsamp metadata_json limit)).
Proof.
  unfold get_preloaded_data.
  set (kept := filter (λ x, class x ≠ 2) metadata_json.*2).
  set (lim := match limit with Some l => l | None => Z.of_nat (length kept) end).
  split.
  - intros metadata preloaded_data.
    destruct (preload rdsamp (py_take kept lim) ∅) as [s|] eqn:Hs; [|done].
    cbn. intros [= <- <-].
    pose proof (preload_keys _ _ _ Hs) as Hkeys.
    destruct (py_take_prefix kept lim) as [n Hn].
    assert (Hsub : ∀ e, e ∈ py_take kept lim → e ∈ kept).
    { intros e. rewrite Hn. intros (i & Hi & _)%elem_of_take.
      by eapply list_elem_of_lookup_2. }
    split; [|split].
    + apply Forall_forall. intros e He. split.
      * apply Hsub in He. by apply list_elem_of_filter in He as [? _].
      * apply Hkeys. right. by apply list_elem_of_fmap_2.
    + intros k [Hk|Hk]%Hkeys.
      * rewrite lookup_empty in Hk. by destruct Hk.
      * apply list_elem_of_fmap in Hk as (e & -> & He). eauto.
    + apply Forall_forall. intros e He%Hsub.
      by apply list_elem_of_filter in He as [_ ?].
  - intros Hrd.
    destruct (preload_total (py_take kept lim) ∅) as [s ->];
      [by intros; apply Hrd|].
    by eexists.
Qed.

End LoaderFacts.

Lemma get_preloaded_data_invariant_witness :
  get_preloaded_data silent_rdsamp sample_json None
    = Ok ([entry_short], {["D" := replicate 3 [0; 0]%Q]})
  ∧ Forall (λ e, class e ≠ 2
                 ∧ is_Some (({["D" := replicate 3 [0; 0]%Q]} : gmap string matrix)
                              !! path e))
           [entry_short].
Proof.
  assert (H : get_preloaded_data silent_rdsamp sample_json None
              = Ok ([entry_short], {["D" := replicate 3 [0; 0]%Q]}))
    by (vm_compute; reflexivity).
  split; [exact H|].
  exact (proj1 (proj1 (get_preloaded_data_invariant silent_rdsamp sample_json None)
                  _ _ H)).
Defined.

(** * Further properties *)

(** ** [ECGDataset.__getitem__]: bounds, missing keys, content *)

Section AdapterEdges.

Implicit Types (self : ECGDataset.t) (idx : Z) (st : RandomState).

Lemma py_index_out_of_range {A} (l : list A) (i : Z) :
  i < - Z.of_nat (length l) ∨ Z.of_nat (length l) ≤ i →
  py_index l i = Raise IndexError.
Proof.
  intros Hi. unfold py_index.
  destruct (Z.ltb_spec i 0).
  - destruct (Z.leb_spec 0 (i + Z.of_nat (length l))); [lia | done].
  - destruct (Z.ltb_spec i (Z.of_nat (length l))); [lia|].
    by rewrite andb_false_r.
Qed.

Lemma py_index_in_range {A} (l : list A) (i : Z) :
  - Z.of_nat (length l) ≤ i < Z.of_nat (length l) → is_Ok (py_index l i).
Proof.
  intros Hi. destruct (Z.lt_ge_cases i 0).
  - destruct (py_index_negative l i) as (_ & x & _ & ->); [lia|]. by eexists.
  - unfold py_index. destruct (Z.ltb_spec i 0); [lia|].
    destruct (Z.leb_spec 0 i); [|lia].
    destruct (Z.ltb_spec i (Z.of_nat (length l))); [|lia]. cbn.
    destruct (lookup_lt_is_Some_2 l (Z.to_nat i)) as [x ->]; [lia|]. by eexists.
Qed.

(** X1.  An index at or beyond [length()], or below [-length()], makes
    [__getitem__] raise IndexError, whatever the store and the transforms
    are. *)
Theorem getitem_index_out_of_range self idx st :
  idx < - ECGDataset.len self ∨ ECGDataset.len self ≤ idx →
  ECGDataset.getitem self idx st = Raise IndexError.
Proof.
  intros Hi. unfold ECGDataset.getitem, mbind, M_bind, lift.
  by rewrite py_index_out_of_range.
Qed.

Lemma getitem_index_out_of_range_witness :
  ECGDataset.getitem sample_dataset 2 first_gauss_ten = Raise IndexError.
Proof.
  apply (getitem_index_out_of_range sample_dataset 2 first_gauss_ten).
  right. vm_compute. discriminate.
Defined.

(** X2.  When the entry at a valid index has a path that is not a key of
    the store, [__getitem__] raises KeyError, whatever the transforms
    are. *)
Theorem getitem_missing_key self idx st (entry : entry) :
  py_index (ECGDataset.metadata self) idx = Ok entry →
  ECGDataset.preloaded_data self !! path entry = None →
  ECGDataset.getitem self idx st = Raise KeyError.
Proof.
  intros Hentry Hnone.
  unfold ECGDataset.getitem, mbind, M_bind, lift, py_getitem.
  by rewrite Hentry, Hnone.
Qed.

Lemma getitem_missing_key_witness :
  ECGDataset.getitem orphan_dataset 0 first_gauss_ten = Raise KeyError.
Proof.
  apply (getitem_missing_key orphan_dataset 0 first_gauss_ten entry_short).
  - reflexivity.
  - vm_compute. reflexivity.
Defined.

(** X3.  With a ready store and no augmentation, [__getitem__] returns a
    triple exactly for the indices from [-length()] to [length() - 1]. *)
Theorem getitem_succeeds_iff_in_range self idx st :
  no_augmentation self → store_ready self →
  (∃ r, ECGDataset.getitem self idx st = Ok r)
  ↔ - ECGDataset.len self ≤ idx < ECGDataset.len self.
Proof.
  intros Hna Hready. split.
  - intros [r Hr].
    destruct (decide (- ECGDataset.len self ≤ idx < ECGDataset.len self)) as [|Hout];
      [done|].
    unfold ECGDataset.getitem, mbind, M_bind, lift in Hr.
    rewrite py_index_out_of_range in Hr; [done|]. unfold ECGDataset.len in Hout. lia.
  - intros Hi. destruct (py_index_in_range (ECGDataset.metadata self) idx Hi)
      as [entry Hentry].
    destruct (plain_item_Ok self idx entry Hready Hentry) as (sig & Hp & _).
    rewrite getitem_plain, Hp by done. by eexists.
Qed.

Lemma getitem_succeeds_iff_in_range_witness :
  (∃ r, ECGDataset.getitem sample_dataset 1 first_gauss_ten = Ok r)
  ↔ - 2 ≤ 1 < 2.
Proof.
  apply (getitem_succeeds_iff_in_range sample_dataset 1 first_gauss_ten).
  - split; [left|]; reflexivity.
  - exact sample_dataset_ready.
Defined.

Lemma cell_transpose_rows (c : nat) (m : matrix) (i j : nat) :
  width_is c m → (j < c)%nat →
  cell (foldr (zip_with cons) (replicate c []) m) j i = cell m i j.
Proof.
  intros Hw Hj. revert i. induction Hw as [|r m Hr Hm IH]; intros i.
  - cbn [foldr]. unfold cell. rewrite lookup_replicate_2 by done. by destruct i.
  - cbn [foldr]. unfold cell in *. rewrite lookup_zip_with.
    destruct (lookup_lt_is_Some_2 r j) as [x Hx]; [lia|]. rewrite Hx.
    destruct (transpose_rows c m Hm) as [Hl _].
    destruct (lookup_lt_is_Some_2 (foldr (zip_with cons) (replicate c []) m) j)
      as [l Hl']; [lia|].
    rewrite Hl' in IH |- *. cbn in IH |- *.
    destruct i as [|i]; cbn; [by rewrite Hx|]. apply IH.
Qed.

Lemma cell_transpose (c : nat) (m : matrix) (i j : nat) :
  m ≠ [] → width_is c m → (j < c)%nat → cell (transpose m) j i = cell m i j.
Proof.
  intros Hne Hw Hj. unfold transpose. destruct m as [|r m]; [done|].
  assert (shape1 (r :: m) = c) as -> by (by inversion Hw).
  by apply cell_transpose_rows.
Qed.

(** X4.  Without augmentation, for an entry with a two-lead signal [raw]
    in the store, the returned tensor holds at [c, t] the float32 value
    of lead [c] of sample [t], for every sample below 15000 that the
    signal has, and 0 at the later time steps up to 15000; the label is
    the class as a one-element vector, and the generator is left as it
    was. *)
Theorem getitem_content self idx st (entry : entry) (raw : matrix) :
  no_augmentation self →
  py_index (ECGDataset.metadata self) idx = Ok entry →
  ECGDataset.preloaded_data self !! path entry = Some raw →
  width_is 2 raw →
  ∃ sig,
    ECGDataset.getitem self idx st
    = Ok (sig, [inject_Z (class entry)],
          match af_ends entry with [] => -1 | a :: _ => a end, st)
    ∧ ∀ c t : nat, (c < 2)%nat →
        ((t < length raw)%nat → (t < Z.to_nat 15000)%nat →
           cell sig c t = round_to float32 <$> cell raw t c)
        ∧ ((length raw ≤ t)%nat → (t < Z.to_nat 15000)%nat →
           cell sig c t = Some 0%Q).
Proof.
  intros Hna Hentry Hraw Hw.
  assert (Hext := extend_ts_eq raw 15000 Hw ltac:(lia)).
  set (k := (Z.to_nat 15000 `min` length raw)%nat) in *.
  set (ext := take k raw ++ replicate (Z.to_nat 15000 - k) [0; 0]%Q) in *.
  exists (transpose (astype_float32 ext)). split.
  - rewrite getitem_plain by done.
    unfold plain_item, mbind, result_bind, py_getitem. by rewrite Hentry, Hraw, Hext.
  - intros c t Hc.
    destruct (extend_ts_Ok_shape _ _ _ Hext) as [Hl Hwe].
    destruct (astype_float32_shape 2 ext Hwe) as [Hla Hwa].
    assert (Hne : astype_float32 ext ≠ [])
      by (intros E; rewrite E in Hla; cbn in Hla; lia).
    rewrite (cell_transpose 2), cell_astype_float32 by done.
    unfold cell, ext. split.
    + intros Ht Ht'. rewrite lookup_app_l by (rewrite length_take; lia).
      by rewrite lookup_take_lt by lia.
    + intros Ht Ht'. rewrite lookup_app_r by (rewrite length_take; lia).
      rewrite lookup_replicate_2 by (rewrite length_take; lia).
      by destruct c as [|[|c]]; [| |lia].
Qed.

Lemma getitem_content_witness :
  ∃ sig,
    ECGDataset.getitem sample_dataset 1 first_gauss_ten
    = Ok (sig, [inject_Z 0], -1, first_gauss_ten)
    ∧ ∀ c t : nat, (c < 2)%nat →
        ((t < length (replicate (Z.to_nat 100) [0; 0]%Q))%nat →
         (t < Z.to_nat 15000)%nat →
           cell sig c t
           = round_to float32 <$> cell (replicate (Z.to_nat 100) [0; 0]%Q) t c)
        ∧ ((length (replicate (Z.to_nat 100) [0; 0]%Q) ≤ t)%nat →
           (t < Z.to_nat 15000)%nat →
           cell sig c t = Some 0%Q).
Proof.
  apply (getitem_content sample_dataset 1 first_gauss_ten entry_B).
  - split; [left|]; reflexivity.
  - reflexivity.
  - exact sample_store_B.
  - apply Forall_replicate. reflexivity.
Defined.

End AdapterEdges.

(** ** [extend_ts]: errors, one-lead input, composition *)

Section ExtensionEdges.

Implicit Types (ts ext : matrix) (L : Z).

(** X5.  A negative target length makes [extend_ts] raise ValueError,
    whatever the signal is. *)
Theorem extend_ts_negative_length ts L :
  L < 0 → extend_ts ts L = Raise ValueError.
Proof.
  intros HL. unfold extend_ts, np_zeros.
  by destruct (Z.ltb_spec L 0); [|lia].
Qed.

Lemma extend_ts_negative_length_witness :
  extend_ts two_ones (-1) = Raise ValueError.
Proof. apply (extend_ts_negative_length two_ones (-1)). lia. Defined.

Lemma broadcast_rows_single (w : nat) (xs : list Q) :
  w ≠ 1%nat →
  broadcast_rows w ((λ x, [x]) <$> xs) = Ok ((λ x, replicate w x) <$> xs).
Proof.
  intros Hw. induction xs as [|x xs IH]; [done|].
  cbn [fmap list_fmap broadcast_rows]. unfold broadcast_row.
  rewrite decide_False by (cbn; lia).
  unfold mbind, result_bind. fold (fmap (M := list) (λ x : Q, [x]) xs).
  by rewrite IH.
Qed.

(** X6.  A signal with a single lead is not rejected: each copied sample
    [x] becomes the row [x, x], so the one lead fills both channels. *)
Theorem extend_ts_single_lead (xs : list Q) L :
  0 ≤ L →
  extend_ts ((λ x, [x]) <$> xs) L
  = Ok (((λ x, [x; x]) <$> take (Z.to_nat L `min` length xs) xs)
        ++ replicate (Z.to_nat L - Z.to_nat L `min` length xs) [0; 0]%Q).
Proof.
  intros HL. unfold extend_ts, np_zeros.
  destruct (Z.ltb_spec L 0) as [?|_]; [lia|].
  unfold mbind at 1, result_bind at 1.
  unfold shape0. rewrite length_fmap, siglength_min by done.
  unfold assign_prefix.
  rewrite broadcast_rows_single by done.
  unfold mbind, result_bind. by rewrite drop_replicate, <- fmap_take.
Qed.

Lemma extend_ts_single_lead_witness :
  extend_ts [[1]; [2]]%Q 3 = Ok [[1; 1]; [2; 2]; [0; 0]]%Q.
Proof. apply (extend_ts_single_lead [1; 2]%Q 3). lia. Defined.

Lemma broadcast_rows_bad_row (w : nat) (m : matrix) (i : nat) (r : list Q) :
  m !! i = Some r → length r ≠ w → length r ≠ 1%nat →
  broadcast_rows w m = Raise ValueError.
Proof.
  revert i. induction m as [|r0 m IH]; intros i Hi Hw H1; [done|].
  cbn [broadcast_rows]. unfold mbind, result_bind.
  destruct i as [|i].
  - injection Hi as ->. unfold broadcast_row.
    rewrite decide_False by done. by destruct r as [|? [|??]].
  - cbn in Hi. rewrite (IH i Hi Hw H1).
    unfold broadcast_row. destruct (decide (length r0 = w)); [done|].
    by destruct r0 as [|? [|??]].
Qed.

(** X7.  When a row that would be copied has neither two columns nor one,
    [extend_ts] raises ValueError. *)
Theorem extend_ts_wrong_width ts L (i : nat) (r : list Q) :
  (i < Z.to_nat L)%nat → ts !! i = Some r →
  length r ≠ 2%nat → length r ≠ 1%nat →
  extend_ts ts L = Raise ValueError.
Proof.
  intros Hi Hr H2 H1. unfold extend_ts, np_zeros.
  destruct (Z.ltb_spec L 0) as [?|HL]; [done|].
  unfold mbind, result_bind, assign_prefix, shape0.
  by rewrite (broadcast_rows_bad_row 2 _ i r).
Qed.

Lemma extend_ts_wrong_width_witness :
  extend_ts [[1; 2; 3]]%Q 1 = Raise ValueError.
Proof.
  apply (extend_ts_wrong_width [[1; 2; 3]]%Q 1 0 [1; 2; 3]%Q);
    [cbn; lia | reflexivity | cbn; lia | cbn; lia].
Defined.

(** X8.  Extending an extended signal to a length that is not larger
    gives what extending the signal itself to that length gives; with the
    same length twice, the second extension changes nothing. *)
Theorem extend_ts_twice ts ext L L' :
  width_is 2 ts → 0 ≤ L' ≤ L →
  extend_ts ts L = Ok ext →
  extend_ts ext L' = extend_ts ts L'.
Proof.
  intros Hw HL Hext.
  destruct (extend_ts_Ok_shape _ _ _ Hext) as [Hl Hwe].
  rewrite (extend_ts_eq ext L') by (done || lia).
  rewrite (extend_ts_eq ts L') by (done || lia).
  rewrite (extend_ts_eq ts L) in Hext by (done || lia).
  injection Hext as <-. f_equal.
  rewrite Hl.
  replace (Z.to_nat L' `min` Z.to_nat L)%nat with (Z.to_nat L') by lia.
  rewrite Nat.sub_diag, app_nil_r.
  rewrite take_app, take_take, take_replicate, length_take.
  f_equal; [f_equal; lia | f_equal; lia].
Qed.

Lemma extend_ts_twice_witness :
  extend_ts (two_ones ++ [[0; 0]; [0; 0]; [0; 0]]%Q) 3 = extend_ts two_ones 3.
Proof.
  apply (extend_ts_twice two_ones (two_ones ++ [[0; 0]; [0; 0]; [0; 0]]%Q) 5 3).
  - repeat constructor.
  - lia.
  - reflexivity.
Defined.

End ExtensionEdges.

(** ** [scaling] without deviation, [shift] without range *)

Section Augmentation.

Implicit Types (X sig : matrix) (st : RandomState).

Lemma rect_same_shape (c : nat) X (out : matrix) :
  rect c X → length out = length X → width_is c out → rect c out.
Proof.
  intros [Hw Hc] Hl Hwo. split; [done|].
  destruct X as [|r X], out as [|r' out]; try done.
  cbn in *. inversion Hw; inversion Hwo; congruence.
Qed.

Lemma scaling_rect (c : nat) X (sigma : Q) st :
  Qle_bool 0 sigma = true →
  rect c X →
  ∃ out, scaling X sigma st = Ok (out, advance_by c st)
    ∧ length out = length X ∧ rect c out
    ∧ ∀ i j, cell out i j
        = (λ x, (x * dot [1%Q] [factor sigma st j])%Q) <$> cell X i j.
Proof.
  intros Hsigma [Hw Hc]. eexists. split; [by rewrite scaling_eq, Hc|].
  split; [by rewrite length_fmap|]. split.
  - apply (rect_same_shape c X); [done | by rewrite length_fmap |].
    by apply width_scaling.
  - intros i j. by apply cell_scaling.
Qed.

(** X10.  With deviation 0 every factor is 1: [scaling] still draws its
    [c] samples but returns the values of its input. *)
Theorem scaling_sigma_zero (c : nat) X st :
  width_is c X → shape1 X = c →
  ∃ out, scaling X 0 st = Ok (out, advance_by c st)
    ∧ ∀ i j x, cell X i j = Some x →
        ∃ y, cell out i j = Some y ∧ (y == x)%Q.
Proof.
  intros Hw Hc.
  destruct (scaling_rect c X 0 st eq_refl (conj Hw Hc))
    as (out & Hrun & _ & _ & Hcell).
  exists out. split; [done|].
  intros i j x Hx. rewrite Hcell, Hx. cbn [fmap option_fmap option_map].
  eexists. split; [done|]. rewrite dot_single. unfold factor. ring.
Qed.

Lemma scaling_sigma_zero_witness :
  ∃ out, scaling two_ones 0 first_gauss_ten = Ok (out, advance_by 2 first_gauss_ten)
    ∧ ∀ i j x, cell two_ones i j = Some x →
        ∃ y, cell out i j = Some y ∧ (y == x)%Q.
Proof.
  apply (scaling_sigma_zero 2 two_ones first_gauss_ten).
  - repeat constructor.
  - reflexivity.
Defined.

(** X12.  With an interval of 0 or less the range of offsets is empty and
    [shift] raises ValueError at its first column, whatever the float type
    of the array is. *)
Theorem shift_empty_range (dt : dtype) (r : list Q) (rest : matrix)
    (interval : Z) st :
  r ≠ [] → interval ≤ 0 →
  shift dt (r :: rest) interval st = Raise ValueError.
Proof.
  intros Hr Hi. unfold shift. cbn [shape1].
  destruct r as [|x r]; [done|]. cbn [length seq shift_loop].
  unfold mbind, M_bind, np_random_choice, py_range, seqZ.
  by replace (Z.to_nat (interval - - interval)) with 0%nat by lia.
Qed.

Lemma shift_empty_range_witness :
  shift float32 two_ones 0 first_uniform_zero = Raise ValueError.
Proof.
  apply (shift_empty_range float32 [1; 1]%Q [[1; 1]%Q] 0 first_uniform_zero);
    [discriminate | lia].
Defined.

End Augmentation.

(** ** [insert_ones]: closed form, offsets far below zero, composition *)

Section InsertOnesMore.

Implicit Types (y : vector).

Lemma iterations_mono (a b : Z) :
  a ≤ b → (Z.to_nat (end_step_y_of a + 1) ≤ Z.to_nat (end_step_y_of b + 1))%nat.
Proof.
  intros Hab. unfold end_step_y_of.
  assert ((a * 1000) ÷ 15000 ≤ (b * 1000) ÷ 15000) by (apply Z.quot_le_mono; lia).
  lia.
Qed.

Lemma iterations_max (a b : Z) :
  Z.to_nat (end_step_y_of (a `max` b) + 1)
  = (Z.to_nat (end_step_y_of a + 1) `max` Z.to_nat (end_step_y_of b + 1))%nat.
Proof.
  destruct (Z.le_ge_cases a b) as [Hab|Hba].
  - pose proof (iterations_mono a b Hab). rewrite Z.max_r by done. lia.
  - pose proof (iterations_mono b a Hba). rewrite Z.max_l by done. lia.
Qed.

(** X14.  For every offset, negative ones included, [insert_ones]
    returns a prefix of ones followed by the untouched rest of [y]; the
    prefix has [end_step_y + 1] entries, cut at the length of [y]. *)
Theorem insert_ones_closed_form y (end_step_x : Z) :
  insert_ones y end_step_x
  = replicate (Z.to_nat (end_step_y_of end_step_x + 1) `min` length y) 1%Q
    ++ drop (Z.to_nat (end_step_y_of end_step_x + 1)) y.
Proof.
  rewrite insert_ones_unfold.
  set (n := Z.to_nat (end_step_y_of end_step_x + 1)).
  destruct (insert_ones_loop y n) as [Hl Hc].
  apply list_eq. intros i. rewrite Hc.
  destruct (decide (i < n `min` length y)%nat) as [Hi|Hi].
  - rewrite lookup_app_l by (rewrite length_replicate; lia).
    rewrite lookup_replicate_2 by done. rewrite decide_True by lia.
    by destruct (lookup_lt_is_Some_2 y i) as [v ->]; [lia|].
  - rewrite lookup_app_r by (rewrite length_replicate; lia).
    rewrite length_replicate, lookup_drop.
    destruct (decide (i < n)%nat).
    + rewrite (lookup_ge_None_2 y i) by lia.
      by rewrite lookup_ge_None_2 by lia.
    + destruct (decide (n ≤ length y)%nat); [f_equal; lia|].
      rewrite (lookup_ge_None_2 y i) by lia.
      by rewrite lookup_ge_None_2 by lia.
Qed.

(** X15.  An offset of -15 or less gives a negative bound, the loop does
    not run and [y] is returned unchanged. *)
Theorem insert_ones_far_negative y (end_step_x : Z) :
  end_step_x ≤ -15 → insert_ones y end_step_x = y.
Proof.
  intros Hx. unfold insert_ones, py_range, seqZ.
  assert (end_step_y_of end_step_x ≤ -1).
  { unfold end_step_y_of.
    rewrite <- (Z.opp_involutive (end_step_x * 1000)), Z.quot_opp_l by lia.
    assert (1 ≤ (- (end_step_x * 1000)) ÷ 15000)
      by (apply Z.quot_le_lower_bound; lia).
    lia. }
  by replace (Z.to_nat (end_step_y_of end_step_x + 1 - 0)) with 0%nat by lia.
Qed.

Lemma insert_ones_far_negative_witness :
  insert_ones [0; 0; 0]%Q (-15) = [0; 0; 0]%Q.
Proof. apply (insert_ones_far_negative [0; 0; 0]%Q (-15)). lia. Defined.

(** X16.  Marking with offset [a] and then with offset [b] is marking
    once with the larger of the two; in particular marking twice with the
    same offset is marking once. *)
Theorem insert_ones_twice y (a b : Z) :
  insert_ones (insert_ones y a) b = insert_ones y (a `max` b).
Proof.
  rewrite !insert_ones_unfold, iterations_max.
  set (na := Z.to_nat (end_step_y_of a + 1)).
  set (nb := Z.to_nat (end_step_y_of b + 1)).
  destruct (insert_ones_loop y na) as [_ Ha].
  destruct (insert_ones_loop (foldl write_one y (seqZ 0 (Z.of_nat na))) nb) as [_ Hb].
  destruct (insert_ones_loop y (na `max` nb)) as [_ Hm].
  apply list_eq. intros i. rewrite Hb, Hm, Ha.
  destruct (decide (i < na)%nat), (decide (i < nb)%nat);
    ((rewrite decide_True by lia) || (rewrite decide_False by lia));
    by destruct (y !! i).
Qed.

End InsertOnesMore.

(** ** [get_preloaded_data]: limits, failures, stored signals *)

Section LoaderMore.

Variable rdsamp : string → Z → result matrix.

Implicit Types (entries : list entry) (s : gmap string matrix).

Lemma preload_other entries (s0 : gmap string matrix) s (k : string) :
  preload rdsamp entries s0 = Ok s → k ∉ path <$> entries → s !! k = s0 !! k.
Proof.
  revert s0. induction entries as [|e entries IH]; intros s0; cbn.
  - by intros [= ->].
  - unfold mbind, result_bind.
    destruct (rdsamp (path e) (50000 `min` sig_len e)) as [sig|]; [|done].
    intros Hs Hk. apply not_elem_of_cons in Hk as [Hne Hk].
    rewrite (IH _ Hs Hk). by rewrite lookup_insert_ne.
Qed.


Lemma preload_raises (pre post : list entry) (e : entry) (x : exn)
    (s0 : gmap string matrix) :
  Forall (λ e', is_Ok (rdsamp (path e') (50000 `min` sig_len e'))) pre →
  rdsamp (path e) (50000 `min` sig_len e) = Raise x →
  preload rdsamp (pre ++ e :: post) s0 = Raise x.
Proof.
  intros Hpre He. revert s0.
  induction Hpre as [|e' pre [sig Hsig] _ IH]; intros s0; cbn.
  - by rewrite He.
  - rewrite Hsig. cbn. apply IH.
Qed.

Lemma preload_nodup entries (s0 : gmap string matrix) s :
  preload rdsamp entries s0 = Ok s → NoDup (path <$> entries) →
  Forall (λ e, ∃ sig, rdsamp (path e) (50000 `min` sig_len e) = Ok sig
                      ∧ s !! path e = Some sig) entries.
Proof.
  revert s0. induction entries as [|e entries IH]; intros s0; cbn.
  - constructor.
  - unfold mbind, result_bind.
    destruct (rdsamp (path e) (50000 `min` sig_len e)) as [sig|] eqn:Hrd; [|done].
    intros Hs [Hnotin Hnd]%NoDup_cons. constructor; [|by eapply IH].
    exists sig. split; [done|].
    rewrite (preload_other _ _ _ _ Hs Hnotin). by rewrite lookup_insert_eq.
Qed.

(** X17.  The returned metadata is a prefix of the entries whose class
    is not 2, in the order of the JSON object: all of them without a
    limit, the first [l] of them for a limit [l >= 0], and all but the
    last [-l] of them for a negative limit. *)
Theorem get_preloaded_data_limit
    (metadata_json : list (string * entry)) (limit : option Z)
    (metadata : list entry) (preloaded_data : gmap string matrix) :
  get_preloaded_data rdsamp metadata_json limit = Ok (metadata, preloaded_data) →
  let kept := filter (λ x, class x ≠ 2) metadata_json.*2 in
  match limit with
  | None => metadata = kept
  | Some l =>
      if l <? 0 then metadata = take (length kept - Z.to_nat (- l)) kept
      else metadata = take (Z.to_nat l) kept
  end.
Proof.
  unfold get_preloaded_data. intros H. cbv zeta in *.
  set (kept := filter (λ x, class x ≠ 2) metadata_json.*2) in *.
  destruct (preload rdsamp _ ∅) as [s|]; [|done]. cbn in H.
  injection H as <- _. unfold py_take. destruct limit as [l|].
  - by destruct (l <? 0).
  - destruct (Z.ltb_spec (Z.of_nat (length kept)) 0); [lia|].
    by rewrite Nat2Z.id, firstn_all.
Qed.

(** X18.  When the reader raises on one of the entries to load, after
    succeeding on the ones before it, [get_preloaded_data] raises the same
    exception and returns nothing. *)
Theorem get_preloaded_data_raises
    (metadata_json : list (string * entry)) (limit : option Z)
    (pre post : list entry) (e : entry) (x : exn) :
  py_take (filter (λ x, class x ≠ 2) metadata_json.*2)
          (match limit with
           | None => Z.of_nat (length (filter (λ x, class x ≠ 2) metadata_json.*2))
           | Some l => l
           end)
    = pre ++ e :: post →
  Forall (λ e', is_Ok (rdsamp (path e') (50000 `min` sig_len e'))) pre →
  rdsamp (path e) (50000 `min` sig_len e) = Raise x →
  get_preloaded_data rdsamp metadata_json limit = Raise x.
Proof.
  intros Hsplit Hpre He. unfold get_preloaded_data. rewrite Hsplit.
  by rewrite (preload_raises pre post e x).
Qed.

(** X19.  When the returned entries have pairwise different paths, the
    store holds for each of them the signal that the reader returned for
    its path with [sampto] at the smaller of 50000 and the entry's
    [sig_len]. *)
Theorem get_preloaded_data_signals
    (metadata_json : list (string * entry)) (limit : option Z)
    (metadata : list entry) (preloaded_data : gmap string matrix) :
  get_preloaded_data rdsamp metadata_json limit = Ok (metadata, preloaded_data) →
  NoDup (path <$> metadata) →
  Forall (λ e, ∃ sig, rdsamp (path e) (50000 `min` sig_len e) = Ok sig
                      ∧ preloaded_data !! path e = Some sig) metadata.
Proof.
  unfold get_preloaded_data.
  destruct (preload rdsamp _ ∅) as [s|] eqn:Hs; [|done]. cbn.
  intros [= <- <-] Hnd. by eapply preload_nodup.
Qed.


End LoaderMore.

Lemma sample_load :
  get_preloaded_data silent_rdsamp sample_json None
  = Ok ([entry_short], {["D" := replicate 3 [0; 0]%Q]}).
Proof. vm_compute. reflexivity. Qed.

Lemma get_preloaded_data_limit_witness :
  get_preloaded_data silent_rdsamp sample_json (Some (-1)) = Ok ([], ∅)
  ∧ [] = take (length (filter (λ x, class x ≠ 2) sample_json.*2) - Z.to_nat (- -1))
              (filter (λ x, class x ≠ 2) sample_json.*2).
Proof.
  assert (H : get_preloaded_data silent_rdsamp sample_json (Some (-1)) = Ok ([], ∅))
    by (vm_compute; reflexivity).
  split; [exact H|].
  exact (get_preloaded_data_limit silent_rdsamp sample_json (Some (-1)) [] ∅ H).
Defined.

Lemma get_preloaded_data_raises_witness :
  get_preloaded_data failing_rdsamp sample_json None = Raise ValueError.
Proof.
  apply (get_preloaded_data_raises failing_rdsamp sample_json None [] [] entry_short).
  - vm_compute. reflexivity.
  - constructor.
  - reflexivity.
Defined.

Lemma get_preloaded_data_signals_witness :
  Forall (λ e, ∃ sig, silent_rdsamp (path e) (50000 `min` sig_len e) = Ok sig
                      ∧ ({["D" := replicate 3 [0; 0]%Q]} : gmap string matrix)
                          !! path e = Some sig)
         [entry_short].
Proof.
  apply (get_preloaded_data_signals silent_rdsamp sample_json None).
  - vm_compute. reflexivity.
  - repeat constructor. vm_compute. intros H. inversion H.
Defined.


(** ** [CNN_RNN.forward]: the shapes it accepts *)

Section Shapes.

Import CNN_RNN.

Lemma conv_block (c_in c_out : Z) (x : shape) :
  relu <$> (Conv1d c_in c_out 3 1 1 x ≫= BatchNorm1d c_out)
  = if (channels x =? c_in) && (1 <=? steps x)
    then Some {| batch := batch x; channels := c_out; steps := steps x |}
    else None.
Proof.
  unfold Conv1d, BatchNorm1d, relu.
  destruct (Z.eqb_spec (channels x) c_in); cbn [andb]; [|done].
  destruct (Z.leb_spec 3 (steps x + 2 * 1)), (Z.leb_spec 1 (steps x));
    try lia; [|done].
  cbn. rewrite Z.eqb_refl. cbn. do 2 f_equal. rewrite Z.div_1_r. lia.
Qed.

Lemma pool_block (x : shape) :
  MaxPool1d 3 3 x
  = if 3 <=? steps x
    then Some {| batch := batch x; channels := channels x; steps := steps x / 3 |}
    else None.
Proof.
  unfold MaxPool1d. destruct (3 <=? steps x); [|done]. do 2 f_equal.
  replace (steps x - 3) with (steps x + (-1) * 3) by lia.
  rewrite Z.div_add by lia. lia.
Qed.

(** X21.  [forward] runs without a shape error exactly on inputs with 2
    channels and between 14985 and 15011 time steps, the lengths whose
    three poolings leave 555 steps of 128 channels, the 71040 features
    that [fc1] expects; the output then has one value per batch item. *)
Theorem forward_accepts (n c L : Z) (out : Z * Z) :
  forward {| batch := n; channels := c; steps := L |} = Some out
  ↔ c = 2 ∧ 14985 ≤ L ≤ 15011 ∧ out = (n, 1).
Proof.
  unfold forward, drop, conv1, conv2, conv3, conv4, conv5, conv6,
    batch1, batch2, batch3, batch4, batch5, batch6, pool1, pool2, pool3,
    fc1, fc2, fc3.
  rewrite !conv_block. cbn [channels steps batch].
  destruct (Z.eqb_spec c 2) as [->|Hc]; cbn [andb]; [|by split; [|lia]].
  destruct (Z.leb_spec 1 L); cbn [mbind option_bind];
    [|split; [done | lia]].
  rewrite !conv_block. cbn [channels steps batch andb Z.eqb Pos.eqb].
  destruct (Z.leb_spec 1 L); [|lia]. cbn [mbind option_bind].
  rewrite pool_block. cbn [channels steps batch].
  destruct (Z.leb_spec 3 L); cbn [mbind option_bind]; [|split; [done | lia]].
  rewrite !conv_block. cbn [channels steps batch andb Z.eqb Pos.eqb].
  assert (1 ≤ L / 3) by (apply Z.div_le_lower_bound; lia).
  destruct (Z.leb_spec 1 (L / 3)); [|lia]. cbn [mbind option_bind].
  rewrite !conv_block. cbn [channels steps batch andb Z.eqb Pos.eqb].
  destruct (Z.leb_spec 1 (L / 3)); [|lia]. cbn [mbind option_bind].
  rewrite pool_block. cbn [channels steps batch].
  destruct (Z.leb_spec 3 (L / 3)); cbn [mbind option_bind];
    [|split; [done | intros (_ & ? & _); exfalso; Z.div_mod_to_equations; lia]].
  rewrite !conv_block. cbn [channels steps batch andb Z.eqb Pos.eqb].
  assert (1 ≤ L / 3 / 3) by (apply Z.div_le_lower_bound; lia).
  destruct (Z.leb_spec 1 (L / 3 / 3)); [|lia]. cbn [mbind option_bind].
  rewrite !conv_block. cbn [channels steps batch andb Z.eqb Pos.eqb].
  destruct (Z.leb_spec 1 (L / 3 / 3)); [|lia]. cbn [mbind option_bind].
  rewrite pool_block. cbn [channels steps batch].
  destruct (Z.leb_spec 3 (L / 3 / 3)); cbn [mbind option_bind];
    [|split; [done | intros (_ & ? & _); exfalso; Z.div_mod_to_equations; lia]].
  unfold flatten, Linear, relu, sigmoid. cbn [channels steps batch fst snd].
  destruct (Z.eqb_spec (128 * (L / 3 / 3 / 3)) 71040) as [E|E].
  - cbn. split.
    + intros [= <-]. split; [done|]. split; [|done].
      Z.div_mod_to_equations. lia.
    + by intros (_ & _ & ->).
  - cbn. split; [done|]. intros (_ & ? & _). exfalso. apply E.
    Z.div_mod_to_equations. lia.
Qed.

Lemma forward_accepts_witness :
  forward {| batch := 50; channels := 2; steps := 15000 |} = Some (50, 1).
Proof.
  apply (forward_accepts 50 2 15000 (50, 1)). split; [done|]. split; [lia|done].
Defined.

(** X22.  What the adapter returns without augmentation fits the model:
    a batch of [n] such tensors has a shape that [forward] accepts, and
    the output has the shape of the batch of labels, as the loss needs. *)
Theorem adapter_output_fits_model (self : ECGDataset.t) (idx n : Z)
    (st st' : RandomState) (sig : matrix) (label : vector) (e : Z) :
  no_augmentation self →
  ECGDataset.getitem self idx st = Ok (sig, label, e, st') →
  forward {| batch := n;
             channels := Z.of_nat (length sig);
             steps := Z.of_nat (shape1 sig) |}
  = Some (n, Z.of_nat (length label)).
Proof.
  intros Hna Hget. rewrite getitem_plain in Hget by done.
  apply lift_Ok_inv in Hget as [Hp _].
  unfold plain_item, mbind, result_bind in Hp.
  destruct (py_index _ idx) as [entry|]; [|done].
  destruct (py_getitem _ (path entry)) as [raw|]; [|done].
  destruct (extend_ts raw 15000) as [ext|] eqn:Hext; [|done].
  injection Hp as <- <- _.
  destruct (channels_first_shape raw ext Hext) as (-> & _ & ->).
  reflexivity.
Qed.

Lemma adapter_output_fits_model_witness :
  forward {| batch := 50;
             channels := Z.of_nat (length (replicate 2 (replicate (Z.to_nat 15000) 1%Q)));
             steps := Z.of_nat (shape1 (replicate 2 (replicate (Z.to_nat 15000) 1%Q))) |}
  = Some (50, Z.of_nat (length [1%Q])).
Proof.
  apply (adapter_output_fits_model sample_dataset 0 50 first_gauss_ten first_gauss_ten
           _ _ 5000).
  - split; [left|]; reflexivity.
  - vm_compute. reflexivity.
Defined.

End Shapes.
